(** * Centipede: chain fragmentation, locomotion and spawn scheduling

    A shallow embedding of [centipede_game.py].  Python objects live in an
    object store ([heap]) indexed by references, because the scene list
    and the engine's chain list alias the same segment objects.  A Python
    [float] is an IEEE 754 binary64 number and is a primitive float here,
    with the same rounding and the same comparisons; integers ([score],
    [hits], [level]) are [Z].  The integers that the code mixes with
    floats (coordinates, direction components, [descent_distance]) are
    small: they are held as the floats of the same value, with which
    they agree in every comparison and every sum or product with a
    float.  Only the sign of a zero can differ: negating the integer 0
    gives 0 in Python and the float -0.0 here, which no test of the game
    tells from 0.0.  A Python exception is the result [None].

    The [engine] package ([GameObject], [Vector2], [Sprite], the scene
    container, the frame loop) lies outside [centipede_game.py]; the few
    operations of it that the game code relies on are modelled from the
    specification and marked as such.  Sprites and sounds are
    presentation and are left out. *)

From Stdlib Require Import ZArith QArith Lia Lqa Floats.
From stdpp Require Import base option list gmap.

Local Open Scope Z_scope.

(** ** Numbers *)

(** Python's [max(a, b)]: the first argument unless the second is
    strictly greater. *)
Definition py_max (a b : float) : float := if (a <? b)%float then b else a.

(** The [int] [n] where it meets a float: the binary64 number nearest
    to [n] (ties to even), which is [n] itself up to 2^53. *)
Definition zf (n : Z) : float :=
  SF2Prim (binary_normalize prec emax n 0 false).

(** The rational number that a finite binary64 number is. *)
Definition F2Q (f : float) : Q :=
  match Prim2SF f with
  | S754_finite s m e =>
      ((if s then -1 else 1) * inject_Z (Z.pos m) * Qpower 2 e)%Q
  | _ => 0%Q
  end.

(** ** Lists as Python uses them *)

(** [x in l] for objects compared by identity. *)
Definition py_in (x : nat) (l : list nat) : bool := bool_decide (x ∈ l).

(** [l.index(x)]: position of the first occurrence; [None] stands for
    [ValueError]. *)
Fixpoint py_index (x : nat) (l : list nat) : option nat :=
  match l with
  | [] => None
  | y :: l' => if decide (x = y) then Some O else S <$> py_index x l'
  end.

(** [l.remove(x)]: drops the first occurrence; [None] stands for
    [ValueError]. *)
Fixpoint py_remove (x : nat) (l : list nat) : option (list nat) :=
  match l with
  | [] => None
  | y :: l' => if decide (x = y) then Some l' else (y ::.) <$> py_remove x l'
  end.

(** ** Engine types *)

Module Vector2.
(** Modelled from the spec: the engine's [Vector2] (absent from the
    sources): a mutable 2D point with componentwise arithmetic and a
    Euclidean [distance_to]. *)
Record t := mk { x : float; y : float }.

(** Modelled from the spec: [a + b] of the engine's [Vector2]. *)
Definition add (a b : t) : t := mk (x a + x b)%float (y a + y b)%float.

(** Modelled from the spec: [a * k] of the engine's [Vector2]. *)
Definition scale (a : t) (k : float) : t := mk (x a * k)%float (y a * k)%float.

(** The assignments [a.x = v] and [a.y = v]. *)
Definition set_x (v : float) (a : t) : t := mk v (y a).
Definition set_y (v : float) (a : t) : t := mk (x a) v.

(** Modelled from the spec: the Euclidean [a.distance_to(b)] of the
    engine's [Vector2], as the square root of the sum of the squared
    differences. *)
Definition distance_to (a b : t) : float :=
  PrimFloat.sqrt ((x a - x b) * (x a - x b) + (y a - y b) * (y a - y b))%float.

(** The test [a.distance_to(b) < r]. *)
Definition closer_than (a b : t) (r : float) : bool :=
  (distance_to a b <? r)%float.
End Vector2.

(** ** Game objects

    Every class record carries the two attributes inherited from
    [GameObject] that the game code reads: [position] (that is
    [transform.position]) and [is_destroyed]. *)

Module BugBlaster.
Record t := mk {
  position : Vector2.t;
  is_destroyed : bool;
  speed : float;
  shoot_cooldown : float;
  shoot_delay : float;
  lives : Z
}.

(** [BugBlaster()]; the delay is the double of the literal [0.1]. *)
Definition new : t :=
  mk (Vector2.mk 400 550) false 200 0 0x1.999999999999ap-4 3.

Definition set_position (p : Vector2.t) (b : t) : t :=
  mk p (is_destroyed b) (speed b) (shoot_cooldown b) (shoot_delay b) (lives b).
Definition set_is_destroyed (d : bool) (b : t) : t :=
  mk (position b) d (speed b) (shoot_cooldown b) (shoot_delay b) (lives b).
End BugBlaster.

Module Dart.
Record t := mk {
  position : Vector2.t;
  is_destroyed : bool;
  velocity : Vector2.t
}.

Definition set_position (p : Vector2.t) (d : t) : t :=
  mk p (is_destroyed d) (velocity d).
Definition set_is_destroyed (b : bool) (d : t) : t :=
  mk (position d) b (velocity d).
End Dart.

Module Mushroom.
Record t := mk {
  position : Vector2.t;
  is_destroyed : bool;
  hits : Z;
  max_hits : Z;
  is_poisoned : bool;
  points : Z
}.

(** [Mushroom(x, y)] *)
Definition new (x y : float) : t := mk (Vector2.mk x y) false 0 4 false 1.

Definition set_position (p : Vector2.t) (m : t) : t :=
  mk p (is_destroyed m) (hits m) (max_hits m) (is_poisoned m) (points m).
Definition set_hits (h : Z) (m : t) : t :=
  mk (position m) (is_destroyed m) h (max_hits m) (is_poisoned m) (points m).
Definition set_is_poisoned (b : bool) (m : t) : t :=
  mk (position m) (is_destroyed m) (hits m) (max_hits m) b (points m).
Definition set_is_destroyed (b : bool) (m : t) : t :=
  mk (position m) b (hits m) (max_hits m) (is_poisoned m) (points m).

Definition poison (m : t) : t := set_is_poisoned true m.

Definition heal (m : t) : t := set_is_poisoned false (set_hits 0 m).
End Mushroom.

Module Flea.
Record t := mk {
  position : Vector2.t;
  is_destroyed : bool;
  speed : float;
  hits_required : Z;
  hits_taken : Z;
  mushroom_drop_chance : float;
  points : Z
}.

(** [Flea()]; [rx] is the draw of [random.randint(50, 750)]; the drop
    chance is the double of the literal [0.3]. *)
Definition new (rx : Z) : t :=
  mk (Vector2.mk (zf rx) (-10)) false 100 2 0 0x1.3333333333333p-2 200.

Definition set_position (p : Vector2.t) (f : t) : t :=
  mk p (is_destroyed f) (speed f) (hits_required f) (hits_taken f)
     (mushroom_drop_chance f) (points f).
Definition set_hits_taken (h : Z) (f : t) : t :=
  mk (position f) (is_destroyed f) (speed f) (hits_required f) h
     (mushroom_drop_chance f) (points f).
Definition set_is_destroyed (b : bool) (f : t) : t :=
  mk (position f) b (speed f) (hits_required f) (hits_taken f)
     (mushroom_drop_chance f) (points f).
End Flea.

Module Spider.
Record t := mk {
  position : Vector2.t;
  is_destroyed : bool;
  speed : float;
  direction : Vector2.t;
  zigzag_timer : float;
  zigzag_interval : float;
  points_base : Z
}.

(** [Spider()]; [side] is the draw of [random.choice([-1, 1])] and [ry]
    that of [random.randint(450, 550)]. *)
Definition new (side : Z) (ry : Z) : t :=
  let start_x := if 0 <? side then 50 else 750 in
  mk (Vector2.mk (zf start_x) (zf ry)) false 80
     (Vector2.mk (zf (- side)) 0) 0 0.5 300.

Definition set_position (p : Vector2.t) (s : t) : t :=
  mk p (is_destroyed s) (speed s) (direction s) (zigzag_timer s)
     (zigzag_interval s) (points_base s).
Definition set_is_destroyed (b : bool) (s : t) : t :=
  mk (position s) b (speed s) (direction s) (zigzag_timer s)
     (zigzag_interval s) (points_base s).
End Spider.

Module Scorpion.
Record t := mk {
  position : Vector2.t;
  is_destroyed : bool;
  speed : float;
  direction : Vector2.t;
  points : Z
}.

(** [Scorpion()]; [side] is the draw of [random.choice([-1, 1])] and
    [ry] that of [random.randint(100, 300)]. *)
Definition new (side : Z) (ry : Z) : t :=
  let start_x := if 0 <? side then -20 else 820 in
  mk (Vector2.mk (zf start_x) (zf ry)) false 60
     (Vector2.mk (zf side) 0) 1000.

Definition set_position (p : Vector2.t) (s : t) : t :=
  mk p (is_destroyed s) (speed s) (direction s) (points s).
Definition set_is_destroyed (b : bool) (s : t) : t :=
  mk (position s) b (speed s) (direction s) (points s).
End Scorpion.

Module CentipedeSegment.
(** The attributes [grid_x], [grid_y] and [grid_size] are written by the
    constructor and never read; they are left out.  [in_player_area]
    records whether the attribute of that name exists
    ([hasattr(self, 'in_player_area')]). *)
Record t := mk {
  position : Vector2.t;
  is_destroyed : bool;
  is_head : bool;
  speed : float;
  direction : Vector2.t;
  descent_distance : float;
  is_descending : bool;
  descend_progress : float;
  is_poisoned_descent : bool;
  in_player_area : bool
}.

(** [CentipedeSegment(is_head)].  The position is the one the engine's
    constructor gives, taken to be the origin; every caller assigns it
    before the segment is used. *)
Definition new (head : bool) : t :=
  mk (Vector2.mk 0 0) false head 50 (Vector2.mk 1 0) 16
     false 0 false false.

Definition set_position (p : Vector2.t) (s : t) : t :=
  mk p (is_destroyed s) (is_head s) (speed s) (direction s)
     (descent_distance s) (is_descending s) (descend_progress s)
     (is_poisoned_descent s) (in_player_area s).
Definition set_is_destroyed (b : bool) (s : t) : t :=
  mk (position s) b (is_head s) (speed s) (direction s)
     (descent_distance s) (is_descending s) (descend_progress s)
     (is_poisoned_descent s) (in_player_area s).
Definition set_is_head (b : bool) (s : t) : t :=
  mk (position s) (is_destroyed s) b (speed s) (direction s)
     (descent_distance s) (is_descending s) (descend_progress s)
     (is_poisoned_descent s) (in_player_area s).
Definition set_speed (v : float) (s : t) : t :=
  mk (position s) (is_destroyed s) (is_head s) v (direction s)
     (descent_distance s) (is_descending s) (descend_progress s)
     (is_poisoned_descent s) (in_player_area s).
Definition set_direction (d : Vector2.t) (s : t) : t :=
  mk (position s) (is_destroyed s) (is_head s) (speed s) d
     (descent_distance s) (is_descending s) (descend_progress s)
     (is_poisoned_descent s) (in_player_area s).
Definition set_is_descending (b : bool) (s : t) : t :=
  mk (position s) (is_destroyed s) (is_head s) (speed s) (direction s)
     (descent_distance s) b (descend_progress s)
     (is_poisoned_descent s) (in_player_area s).
Definition set_descend_progress (v : float) (s : t) : t :=
  mk (position s) (is_destroyed s) (is_head s) (speed s) (direction s)
     (descent_distance s) (is_descending s) v
     (is_poisoned_descent s) (in_player_area s).
Definition set_is_poisoned_descent (b : bool) (s : t) : t :=
  mk (position s) (is_destroyed s) (is_head s) (speed s) (direction s)
     (descent_distance s) (is_descending s) (descend_progress s)
     b (in_player_area s).
Definition set_in_player_area (b : bool) (s : t) : t :=
  mk (position s) (is_destroyed s) (is_head s) (speed s) (direction s)
     (descent_distance s) (is_descending s) (descend_progress s)
     (is_poisoned_descent s) b.

(** [_start_descent] *)
Definition _start_descent (s : t) : t :=
  set_descend_progress 0 (set_is_descending true s).

(** [_start_poison_descent] *)
Definition _start_poison_descent (s : t) : t :=
  set_is_descending false
    (set_is_poisoned_descent true (set_direction (Vector2.mk 0 1) s)).

(** [_check_mushroom_collision(new_pos)], for a segment that belongs to
    a scene (the test [hasattr(self.scene, 'game_objects')] holds).
    [mushrooms] is the list the method builds from the scene: the
    mushrooms that are not destroyed, in scene order.  The loop returns
    at the first mushroom closer than 12, after starting the poison
    descent when that mushroom is poisoned. *)
Fixpoint _check_mushroom_collision
    (mushrooms : list Mushroom.t) (new_pos : Vector2.t) (s : t) : bool * t :=
  match mushrooms with
  | [] => (false, s)
  | mushroom :: rest =>
      if Vector2.closer_than new_pos (Mushroom.position mushroom) 12
      then (true, if Mushroom.is_poisoned mushroom
                  then _start_poison_descent s else s)
      else _check_mushroom_collision rest new_pos s
  end.

(** [_handle_horizontal_movement(delta_time)].  Python's [or] evaluates
    the mushroom test only when neither edge test holds. *)
Definition _handle_horizontal_movement
    (mushrooms : list Mushroom.t) (delta_time : float) (s : t) : t :=
  let move_distance := (speed s * delta_time)%float in
  let new_pos := Vector2.add (position s)
                   (Vector2.scale (direction s) move_distance) in
  if (Vector2.x new_pos <=? 16)%float || (784 <=? Vector2.x new_pos)%float
  then _start_descent s
  else
    let '(collides, s1) := _check_mushroom_collision mushrooms new_pos s in
    if collides then _start_descent s1 else set_position new_pos s1.

(** [_handle_descent(delta_time)] *)
Definition _handle_descent (delta_time : float) (s : t) : t :=
  let s1 := set_descend_progress
              (descend_progress s + speed s * 2 * delta_time)%float s in
  if (descent_distance s1 <=? descend_progress s1)%float then
    let s2 := set_is_descending false s1 in
    let s3 := set_descend_progress 0 s2 in
    let s4 := set_direction
                (Vector2.set_x (- Vector2.x (direction s3))%float
                               (direction s3))
                s3 in
    if is_poisoned_descent s4 then set_is_poisoned_descent false s4 else s4
  else
    set_position
      (Vector2.set_y
         (Vector2.y (position s1) + speed s1 * 2 * delta_time)%float
         (position s1))
      s1.

(** [_enter_player_area]; the factor is the double of the literal
    [0.7]. *)
Definition _enter_player_area (s : t) : t :=
  if negb (in_player_area s)
  then set_speed (speed s * 0x1.6666666666666p-1)%float
                 (set_in_player_area true s)
  else s.

(** [update(delta_time)].  The base class update of the engine, which
    the method calls first, is outside the sources and outside this
    model. *)
Definition update (mushrooms : list Mushroom.t) (delta_time : float) (s : t)
    : t :=
  let s1 := if is_descending s
            then _handle_descent delta_time s
            else _handle_horizontal_movement mushrooms delta_time s in
  if (400 <? Vector2.y (position s1))%float
  then _enter_player_area s1
  else s1.
End CentipedeSegment.

(** ** The object store and the game *)

(** An object of the scene, tagged by its class ([isinstance]). *)
Inductive Obj :=
| OBugBlaster (b : BugBlaster.t)
| ODart (d : Dart.t)
| OMushroom (m : Mushroom.t)
| OSegment (s : CentipedeSegment.t)
| OFlea (f : Flea.t)
| OSpider (s : Spider.t)
| OScorpion (s : Scorpion.t).

Definition obj_position (o : Obj) : Vector2.t :=
  match o with
  | OBugBlaster b => BugBlaster.position b
  | ODart d => Dart.position d
  | OMushroom m => Mushroom.position m
  | OSegment s => CentipedeSegment.position s
  | OFlea f => Flea.position f
  | OSpider s => Spider.position s
  | OScorpion s => Scorpion.position s
  end.

(** The assignment [obj.transform.position = p]. *)
Definition obj_set_position (p : Vector2.t) (o : Obj) : Obj :=
  match o with
  | OBugBlaster b => OBugBlaster (BugBlaster.set_position p b)
  | ODart d => ODart (Dart.set_position p d)
  | OMushroom m => OMushroom (Mushroom.set_position p m)
  | OSegment s => OSegment (CentipedeSegment.set_position p s)
  | OFlea f => OFlea (Flea.set_position p f)
  | OSpider s => OSpider (Spider.set_position p s)
  | OScorpion s => OScorpion (Scorpion.set_position p s)
  end.

Definition obj_is_destroyed (o : Obj) : bool :=
  match o with
  | OBugBlaster b => BugBlaster.is_destroyed b
  | ODart d => Dart.is_destroyed d
  | OMushroom m => Mushroom.is_destroyed m
  | OSegment s => CentipedeSegment.is_destroyed s
  | OFlea f => Flea.is_destroyed f
  | OSpider s => Spider.is_destroyed s
  | OScorpion s => Scorpion.is_destroyed s
  end.

(** Modelled from the spec: [GameObject.destroy()] of the engine (absent
    from the sources) marks the object destroyed; taking it out of the
    scene list is the scene container's bookkeeping. *)
Definition obj_destroy (o : Obj) : Obj :=
  match o with
  | OBugBlaster b => OBugBlaster (BugBlaster.set_is_destroyed true b)
  | ODart d => ODart (Dart.set_is_destroyed true d)
  | OMushroom m => OMushroom (Mushroom.set_is_destroyed true m)
  | OSegment s => OSegment (CentipedeSegment.set_is_destroyed true s)
  | OFlea f => OFlea (Flea.set_is_destroyed true f)
  | OSpider s => OSpider (Spider.set_is_destroyed true s)
  | OScorpion s => OScorpion (Scorpion.set_is_destroyed true s)
  end.

(** [CentipedeGame] together with its current scene.  [scene_engine]
    tells whether the scene has its [engine] attribute
    ([hasattr(self.scene, 'engine')]).  [player] is [None] while the
    attribute [player] does not exist: [__init__] does not assign it,
    [setup_game] does, and reading it before that raises
    [AttributeError]. *)
Record Game := mkGame {
  heap : gmap nat Obj;
  game_objects : list nat;
  scene_engine : bool;
  player : option nat;
  score : Z;
  lives : Z;
  level : Z;
  centipede_segments : list nat;
  current_centipede_length : Z;
  flea_spawn_timer : float;
  spider_spawn_timer : float;
  scorpion_spawn_timer : float;
  flea_spawn_rate : float;
  spider_spawn_rate : float;
  scorpion_spawn_rate : float;
  extra_life_awarded : bool
}.

Definition set_heap (h : gmap nat Obj) (g : Game) : Game :=
  mkGame h (game_objects g) (scene_engine g) (player g) (score g) (lives g)
    (level g) (centipede_segments g) (current_centipede_length g)
    (flea_spawn_timer g) (spider_spawn_timer g) (scorpion_spawn_timer g)
    (flea_spawn_rate g) (spider_spawn_rate g) (scorpion_spawn_rate g)
    (extra_life_awarded g).
Definition set_game_objects (l : list nat) (g : Game) : Game :=
  mkGame (heap g) l (scene_engine g) (player g) (score g) (lives g)
    (level g) (centipede_segments g) (current_centipede_length g)
    (flea_spawn_timer g) (spider_spawn_timer g) (scorpion_spawn_timer g)
    (flea_spawn_rate g) (spider_spawn_rate g) (scorpion_spawn_rate g)
    (extra_life_awarded g).
Definition set_scene_engine (b : bool) (g : Game) : Game :=
  mkGame (heap g) (game_objects g) b (player g) (score g) (lives g)
    (level g) (centipede_segments g) (current_centipede_length g)
    (flea_spawn_timer g) (spider_spawn_timer g) (scorpion_spawn_timer g)
    (flea_spawn_rate g) (spider_spawn_rate g) (scorpion_spawn_rate g)
    (extra_life_awarded g).
Definition set_player (p : option nat) (g : Game) : Game :=
  mkGame (heap g) (game_objects g) (scene_engine g) p (score g) (lives g)
    (level g) (centipede_segments g) (current_centipede_length g)
    (flea_spawn_timer g) (spider_spawn_timer g) (scorpion_spawn_timer g)
    (flea_spawn_rate g) (spider_spawn_rate g) (scorpion_spawn_rate g)
    (extra_life_awarded g).
Definition set_score (n : Z) (g : Game) : Game :=
  mkGame (heap g) (game_objects g) (scene_engine g) (player g) n (lives g)
    (level g) (centipede_segments g) (current_centipede_length g)
    (flea_spawn_timer g) (spider_spawn_timer g) (scorpion_spawn_timer g)
    (flea_spawn_rate g) (spider_spawn_rate g) (scorpion_spawn_rate g)
    (extra_life_awarded g).
Definition set_lives (n : Z) (g : Game) : Game :=
  mkGame (heap g) (game_objects g) (scene_engine g) (player g) (score g) n
    (level g) (centipede_segments g) (current_centipede_length g)
    (flea_spawn_timer g) (spider_spawn_timer g) (scorpion_spawn_timer g)
    (flea_spawn_rate g) (spider_spawn_rate g) (scorpion_spawn_rate g)
    (extra_life_awarded g).
Definition set_level (n : Z) (g : Game) : Game :=
  mkGame (heap g) (game_objects g) (scene_engine g) (player g) (score g)
    (lives g) n (centipede_segments g) (current_centipede_length g)
    (flea_spawn_timer g) (spider_spawn_timer g) (scorpion_spawn_timer g)
    (flea_spawn_rate g) (spider_spawn_rate g) (scorpion_spawn_rate g)
    (extra_life_awarded g).
Definition set_centipede_segments (l : list nat) (g : Game) : Game :=
  mkGame (heap g) (game_objects g) (scene_engine g) (player g) (score g)
    (lives g) (level g) l (current_centipede_length g)
    (flea_spawn_timer g) (spider_spawn_timer g) (scorpion_spawn_timer g)
    (flea_spawn_rate g) (spider_spawn_rate g) (scorpion_spawn_rate g)
    (extra_life_awarded g).
Definition set_current_centipede_length (n : Z) (g : Game) : Game :=
  mkGame (heap g) (game_objects g) (scene_engine g) (player g) (score g)
    (lives g) (level g) (centipede_segments g) n
    (flea_spawn_timer g) (spider_spawn_timer g) (scorpion_spawn_timer g)
    (flea_spawn_rate g) (spider_spawn_rate g) (scorpion_spawn_rate g)
    (extra_life_awarded g).
Definition set_spawn_timers (flea spider scorpion : float) (g : Game) : Game :=
  mkGame (heap g) (game_objects g) (scene_engine g) (player g) (score g)
    (lives g) (level g) (centipede_segments g) (current_centipede_length g)
    flea spider scorpion
    (flea_spawn_rate g) (spider_spawn_rate g) (scorpion_spawn_rate g)
    (extra_life_awarded g).
Definition set_spawn_rates (flea spider scorpion : float) (g : Game) : Game :=
  mkGame (heap g) (game_objects g) (scene_engine g) (player g) (score g)
    (lives g) (level g) (centipede_segments g) (current_centipede_length g)
    (flea_spawn_timer g) (spider_spawn_timer g) (scorpion_spawn_timer g)
    flea spider scorpion
    (extra_life_awarded g).
Definition set_extra_life_awarded (b : bool) (g : Game) : Game :=
  mkGame (heap g) (game_objects g) (scene_engine g) (player g) (score g)
    (lives g) (level g) (centipede_segments g) (current_centipede_length g)
    (flea_spawn_timer g) (spider_spawn_timer g) (scorpion_spawn_timer g)
    (flea_spawn_rate g) (spider_spawn_rate g) (scorpion_spawn_rate g) b.

(** Assigning to an attribute of the object behind [r]. *)
Definition store (r : nat) (o : Obj) (g : Game) : Game :=
  set_heap (<[r := o]> (heap g)) g.

(** Creating an object: a reference no live object has. *)
Definition alloc (o : Obj) (g : Game) : nat * Game :=
  let r := fresh (dom (heap g)) in (r, store r o g).

(** [obj.destroy()] *)
Definition destroy (r : nat) (g : Game) : Game :=
  set_heap (alter obj_destroy r (heap g)) g.

(** Modelled from the spec: [scene.add_object(obj)] of the engine's scene
    container (absent from the sources) appends the object to
    [game_objects]. *)
Definition add_object (r : nat) (g : Game) : Game :=
  set_game_objects (game_objects g ++ [r]) g.

(** [[obj for obj in game_objects if isinstance(obj, Mushroom)
      and not obj.is_destroyed]] *)
Definition live_mushroom (g : Game) (r : nat) : option Mushroom.t :=
  match heap g !! r with
  | Some (OMushroom m) => if Mushroom.is_destroyed m then None else Some m
  | _ => None
  end.

Definition live_mushrooms (g : Game) : list Mushroom.t :=
  omap (live_mushroom g) (game_objects g).

(** A loop whose body may raise. *)
Fixpoint for_each {A : Type} (body : A → Game → option Game)
    (l : list A) (g : Game) : option Game :=
  match l with
  | [] => Some g
  | a :: l' => g' ← body a g; for_each body l' g'
  end.

(** ** Hits *)

(** [Mushroom.hit()] on the mushroom behind [self]. *)
Definition Mushroom_hit (self : nat) (g : Game) : option Game :=
  match heap g !! self with
  | Some (OMushroom m) =>
      if Mushroom.is_destroyed m then Some g
      else
        let m1 := Mushroom.set_hits (Mushroom.hits m + 1) m in
        let g1 := store self (OMushroom m1) g in
        if Mushroom.max_hits m1 <=? Mushroom.hits m1 then
          let g2 := if scene_engine g1
                    then set_score (score g1 + Mushroom.points m1) g1
                    else g1 in
          Some (destroy self g2)
        else Some g1
  | _ => None
  end.

(** [Flea.hit()] on the flea behind [self]. *)
Definition Flea_hit (self : nat) (g : Game) : option Game :=
  match heap g !! self with
  | Some (OFlea f) =>
      let f1 := Flea.set_hits_taken (Flea.hits_taken f + 1) f in
      let g1 := store self (OFlea f1) g in
      if Flea.hits_required f1 <=? Flea.hits_taken f1 then
        let g2 := if scene_engine g1
                  then set_score (score g1 + Flea.points f1) g1
                  else g1 in
        Some (destroy self g2)
      else Some g1
  | _ => None
  end.

(** ** Chain fragmentation *)

(** [segment.is_head = True] (with the change of sprite). *)
Definition promote (segment : nat) (g : Game) : option Game :=
  match heap g !! segment with
  | Some (OSegment s) =>
      Some (store segment (OSegment (CentipedeSegment.set_is_head true s)) g)
  | _ => None
  end.

(** One round of the loop [for i in range(hit_index)]. *)
Definition split_loop_body (hit_index : nat) (i : nat) (g : Game)
    : option Game :=
  if (i <? length (centipede_segments g))%nat then
    segment ← centipede_segments g !! i;
    if (i =? hit_index - 1)%nat then promote segment g else Some g
  else Some g.

(** [_split_centipede_at_segment(hit_segment)] *)
Definition _split_centipede_at_segment (hit_segment : nat) (g : Game)
    : option Game :=
  if negb (py_in hit_segment (centipede_segments g)) then Some g
  else
    hit_index ← py_index hit_segment (centipede_segments g);
    remaining ← py_remove hit_segment (centipede_segments g);
    let g1 := set_centipede_segments remaining g in
    g2 ← (if (0 <? hit_index)%nat
          then for_each (split_loop_body hit_index) (seq 0 hit_index) g1
          else Some g1);
    match centipede_segments g2 with
    | [] => Some g2
    | first_remaining :: _ =>
        match heap g2 !! first_remaining with
        | Some (OSegment s) =>
            if negb (CentipedeSegment.is_head s)
            then promote first_remaining g2
            else Some g2
        | _ => None
        end
    end.

(** [CentipedeSegment.hit()] on the segment behind [self]. *)
Definition CentipedeSegment_hit (self : nat) (g : Game) : option Game :=
  match heap g !! self with
  | Some (OSegment s) =>
      if CentipedeSegment.is_destroyed s then Some g
      else
        let points := if CentipedeSegment.is_head s then 100 else 10 in
        let g1 := if scene_engine g then set_score (score g + points) g
                  else g in
        let '(mushroom, g2) :=
          alloc (OMushroom
                   (Mushroom.new (Vector2.x (CentipedeSegment.position s))
                                 (Vector2.y (CentipedeSegment.position s))))
                g1 in
        let g3 := add_object mushroom g2 in
        g4 ← (if scene_engine g3
              then _split_centipede_at_segment self g3
              else Some g3);
        Some (destroy self g4)
  | _ => None
  end.

(** [CentipedeSegment.update(delta_time)] on the segment behind [self]:
    the method reads the scene's mushrooms and writes only [self]. *)
Definition CentipedeSegment_update (self : nat) (delta_time : float)
    (g : Game) : option Game :=
  match heap g !! self with
  | Some (OSegment s) =>
      Some (store self
              (OSegment
                 (CentipedeSegment.update (live_mushrooms g) delta_time s))
              g)
  | _ => None
  end.

(** ** The game controller *)

(** The outcomes of the calls to [random] in one frame. *)
Record Draws := mkDraws {
  flea_x : Z;
  spider_side : Z;
  spider_y : Z;
  scorpion_side : Z;
  scorpion_y : Z;
  centipede_choice : bool
}.

(** [CentipedeGame.__init__], with the empty scene of the engine. *)
Definition CentipedeGame_init : Game :=
  mkGame ∅ [] false None 0 3 1 [] 12 0 0 0 8 15 25 false.

(** One round of the loop of [spawn_centipede]. *)
Definition spawn_segment (start_x : Z) (i : nat) (g : Game) : Game :=
  let segment0 := CentipedeSegment.new (bool_decide (i = O)) in
  let segment1 :=
    CentipedeSegment.set_position
      (Vector2.mk (zf (start_x + Z.of_nat i * 16)) 50) segment0 in
  let segment2 :=
    if 400 <? start_x
    then CentipedeSegment.set_direction (Vector2.mk (-1) 0) segment1
    else segment1 in
  let '(r, g1) := alloc (OSegment segment2) g in
  add_object r (set_centipede_segments (centipede_segments g1 ++ [r]) g1).

(** [spawn_centipede()]; [choice] is the draw of
    [random.choice([True, False])]. *)
Definition spawn_centipede (choice : bool) (g : Game) : Game :=
  let g0 := set_centipede_segments [] g in
  let start_x := if choice then 50 else 750 in
  foldl (λ acc i, spawn_segment start_x i acc) g0
        (seq 0 (Z.to_nat (current_centipede_length g0))).

(** [_spawn_enemies()] *)
Definition _spawn_enemies (rnd : Draws) (g : Game) : Game :=
  let g1 :=
    if (flea_spawn_rate g <=? flea_spawn_timer g)%float then
      let player_area_mushrooms :=
        filter (λ m, (400 <? Vector2.y (Mushroom.position m))%float = true)
               (live_mushrooms g) in
      let g' :=
        if (length player_area_mushrooms <? 3)%nat then
          let '(flea, g'') := alloc (OFlea (Flea.new (flea_x rnd))) g in
          add_object flea g''
        else g in
      set_spawn_timers 0 (spider_spawn_timer g') (scorpion_spawn_timer g') g'
    else g in
  let g2 :=
    if (spider_spawn_rate g1 <=? spider_spawn_timer g1)%float then
      let '(spider, g') :=
        alloc (OSpider (Spider.new (spider_side rnd) (spider_y rnd))) g1 in
      let g'' := add_object spider g' in
      set_spawn_timers (flea_spawn_timer g'') 0 (scorpion_spawn_timer g'') g''
    else g1 in
  if (scorpion_spawn_rate g2 <=? scorpion_spawn_timer g2)%float then
    let '(scorpion, g') :=
      alloc (OScorpion (Scorpion.new (scorpion_side rnd) (scorpion_y rnd)))
            g2 in
    let g'' := add_object scorpion g' in
    set_spawn_timers (flea_spawn_timer g'') (spider_spawn_timer g'') 0 g''
  else g2.

(** [_next_level()] *)
Definition _next_level (rnd : Draws) (g : Game) : Game :=
  let g1 := set_level (level g + 1) g in
  let g2 := set_current_centipede_length
              (Z.max 1 (current_centipede_length g1 - 1)) g1 in
  let g3 := spawn_centipede (centipede_choice rnd) g2 in
  let g4 := set_spawn_rates
              (py_max 5 (flea_spawn_rate g3 - 0.5)%float)
              (spider_spawn_rate g3) (scorpion_spawn_rate g3) g3 in
  let g5 := set_spawn_rates (flea_spawn_rate g4)
              (py_max 10 (spider_spawn_rate g4 - 1)%float)
              (scorpion_spawn_rate g4) g4 in
  set_spawn_rates (flea_spawn_rate g5) (spider_spawn_rate g5)
    (py_max 15 (scorpion_spawn_rate g5 - 2)%float) g5.

(** One round of the loop of [_regenerate_mushrooms]; the counter is
    [regenerated_count]. *)
Definition regenerate_one (acc : Game * Z) (r : nat) : Game * Z :=
  match heap (acc.1) !! r with
  | Some (OMushroom m) =>
      if (0 <? Mushroom.hits m) || Mushroom.is_poisoned m
      then (store r (OMushroom (Mushroom.heal m)) (acc.1), acc.2 + 1)
      else acc
  | _ => acc
  end.

(** [_regenerate_mushrooms()] *)
Definition _regenerate_mushrooms (g : Game) : Game :=
  let mushrooms :=
    filter (λ r, is_Some (live_mushroom g r)) (game_objects g) in
  let '(g1, regenerated_count) := foldl regenerate_one (g, 0) mushrooms in
  set_score (score g1 + regenerated_count * 5) g1.

(** [_player_death()]; [_game_over] only prints.  Resetting the position
    reads the attribute [player]. *)
Definition _player_death (g : Game) : option Game :=
  let g1 := set_lives (lives g - 1) g in
  if lives g1 <=? 0 then Some g1
  else
    let g2 := _regenerate_mushrooms g1 in
    p ← player g2;
    o ← heap g2 !! p;
    Some (store p (obj_set_position (Vector2.mk 400 550) o) g2).

(** An enemy of the player that is still alive. *)
Definition live_enemy (g : Game) (r : nat) : option Obj :=
  match heap g !! r with
  | Some o =>
      match o with
      | OSegment _ | OFlea _ | OSpider _ | OScorpion _ =>
          if obj_is_destroyed o then None else Some o
      | _ => None
      end
  | None => None
  end.

(** [_check_player_collisions()].  The guard reads the attribute
    [player], which raises while [setup_game] has not run; the loop ends
    at the first live enemy closer than 12. *)
Definition _check_player_collisions (g : Game) : option Game :=
  p ← player g;
  o ← heap g !! p;
  if obj_is_destroyed o then Some g
  else
    let player_pos := obj_position o in
    let enemies := omap (live_enemy g) (game_objects g) in
    if existsb
         (λ enemy, Vector2.closer_than player_pos (obj_position enemy) 12)
         enemies
    then _player_death g
    else Some g.

(** A segment of the scene that is not destroyed. *)
Definition live_segment (g : Game) (r : nat) : option CentipedeSegment.t :=
  match heap g !! r with
  | Some (OSegment s) =>
      if CentipedeSegment.is_destroyed s then None else Some s
  | _ => None
  end.

(** The three [+= delta_time] on the spawn timers in [update]. *)
Definition advance_spawn_timers (delta_time : float) (g : Game) : Game :=
  set_spawn_timers (flea_spawn_timer g + delta_time)%float
                   (spider_spawn_timer g + delta_time)%float
                   (scorpion_spawn_timer g + delta_time)%float g.

(** [CentipedeGame.update(delta_time)], from the spawn timers on.  The
    engine's own update, which runs first, and the escape key are outside
    the sources and outside this model. *)
Definition update (delta_time : float) (rnd : Draws) (g : Game)
    : option Game :=
  let g1 := advance_spawn_timers delta_time g in
  let g2 := _spawn_enemies rnd g1 in
  let remaining_segments := omap (live_segment g2) (game_objects g2) in
  let g3 := match remaining_segments with
            | [] => _next_level rnd g2
            | _ :: _ => g2
            end in
  g4 ← _check_player_collisions g3;
  Some (if (12000 <=? score g4) && negb (extra_life_awarded g4)
        then set_extra_life_awarded true (set_lives (lives g4 + 1) g4)
        else g4).

(** [range(start, stop, step)] for a positive step. *)
Definition py_range (start stop step : Z) : list Z :=
  (λ i, start + Z.of_nat i * step) <$>
    seq 0 (Z.to_nat ((stop - start + step - 1) / step)).

(** [create_mushroom_field()]; [grow x y] is the outcome of
    [random.random() < 0.15] at the cell [(x, y)]. *)
Definition create_mushroom_field (grow : Z → Z → bool) (g : Game) : Game :=
  foldl
    (λ acc y,
       foldl
         (λ acc' x,
            if grow x y then
              let '(mushroom, acc'') :=
                alloc (OMushroom (Mushroom.new (zf x) (zf y))) acc' in
              add_object mushroom acc''
            else acc')
         acc (py_range 50 750 20))
    g (py_range 100 380 20).

(** [setup_game()] *)
Definition setup_game (grow : Z → Z → bool) (choice : bool) (g : Game)
    : Game :=
  let g0 := set_game_objects [] g in
  let '(p, g1) := alloc (OBugBlaster BugBlaster.new) g0 in
  let g2 := add_object p (set_player (Some p) g1) in
  let g3 := create_mushroom_field grow g2 in
  let g4 := spawn_centipede choice g3 in
  set_scene_engine true g4.

(** ** Observations used in the statements *)

(** The [is_head] flag of the segment behind [r]. *)
Definition head_flag (g : Game) (r : nat) : bool :=
  match heap g !! r with
  | Some (OSegment s) => CentipedeSegment.is_head s
  | _ => false
  end.


(** Every member of the chain is a segment of the store. *)
Definition chain_wf (g : Game) : Prop :=
  ∀ r, r ∈ centipede_segments g → ∃ s, heap g !! r = Some (OSegment s).

(** The two groups of the loop of [_split_centipede_at_segment], read on
    the chain that remains: the indices below [hit_index] and the
    rest. *)
Definition head_subchain (hit_index : nat) (g : Game) : list nat :=
  take hit_index (centipede_segments g).
Definition tail_subchain (hit_index : nat) (g : Game) : list nat :=
  drop hit_index (centipede_segments g).

(** The references whose head flag a split at index [k] sets, read off
    the remaining chain [rem]. *)
Definition promoted (k : nat) (rem : list nat) : list nat :=
  match k with
  | O => []
  | S k' => option_list (rem !! k')
  end ++ option_list (rem !! O).


(** Running a segment over the frames [dts]. *)
Definition run (mushrooms : list Mushroom.t) (dts : list float)
    (s : CentipedeSegment.t) : CentipedeSegment.t :=
  foldl (λ s' dt, CentipedeSegment.update mushrooms dt s') s dts.

(** What the test [descend_progress >= descent_distance] of
    [_handle_descent] sees in a frame of length [dt], and the two
    outcomes of that test, as binary64 decides it. *)
Definition incremented_progress (dt : float) (s : CentipedeSegment.t)
    : float :=
  (CentipedeSegment.descend_progress s
   + CentipedeSegment.speed s * 2 * dt)%float.
Definition reaches (dt : float) (s : CentipedeSegment.t) : Prop :=
  (CentipedeSegment.descent_distance s <=? incremented_progress dt s)%float
  = true.
Definition below (dt : float) (s : CentipedeSegment.t) : Prop :=
  (CentipedeSegment.descent_distance s <=? incremented_progress dt s)%float
  = false.

(** Every frame of [dts] leaves the progress below the descent
    distance. *)
Fixpoint all_below (mushrooms : list Mushroom.t) (dts : list float)
    (s : CentipedeSegment.t) : Prop :=
  match dts with
  | [] => True
  | dt :: rest =>
      below dt s ∧
      all_below mushrooms rest (CentipedeSegment.update mushrooms dt s)
  end.

(** The same segment at another horizontal coordinate. *)
Definition at_x (x : float) (s : CentipedeSegment.t) : CentipedeSegment.t :=
  CentipedeSegment.set_position
    (Vector2.set_x x (CentipedeSegment.position s)) s.

(** The player-area step of [update], applied to the state [s1] that the
    movement step left. *)
Definition player_area_step (s1 : CentipedeSegment.t) : CentipedeSegment.t :=
  if (400 <? Vector2.y (CentipedeSegment.position s1))%float
  then CentipedeSegment._enter_player_area s1
  else s1.

(** The prospective position of [_handle_horizontal_movement]. *)
Definition prospective (dt : float) (s : CentipedeSegment.t) : Vector2.t :=
  Vector2.add (CentipedeSegment.position s)
    (Vector2.scale (CentipedeSegment.direction s)
                   (CentipedeSegment.speed s * dt)%float).

(** The first mushroom of the scan that is closer than 12 to [p]. *)
Definition first_overlap (mushrooms : list Mushroom.t) (p : Vector2.t)
    : option Mushroom.t :=
  List.find (λ m, Vector2.closer_than p (Mushroom.position m) 12)
            mushrooms.

(** A scene with one segment moving right at (100, 114) and one poisoned
    mushroom at (110, 114). *)
Definition poison_scene : Game :=
  let '(seg, g1) :=
    alloc (OSegment
             (CentipedeSegment.set_position (Vector2.mk 100 114)
                (CentipedeSegment.new true)))
          CentipedeGame_init in
  let g2 := add_object seg (set_centipede_segments [seg] g1) in
  let '(m, g3) :=
    alloc (OMushroom (Mushroom.poison (Mushroom.new 110 114))) g2 in
  set_scene_engine true (add_object m g3).

(** [n] calls of [hit()] in a row on the mushroom behind [self]. *)
Definition hit_times (n : nat) (self : nat) (g : Game) : option Game :=
  Nat.iter n (λ og, og ≫= Mushroom_hit self) (Some g).

(** The durability invariant of a mushroom. *)
Definition mushroom_inv (m : Mushroom.t) : Prop :=
  0 ≤ Mushroom.hits m ∧
  (Mushroom.is_destroyed m = false → Mushroom.hits m < Mushroom.max_hits m).

(** A scene, attached to its engine, with one fresh mushroom. *)
Definition mushroom_scene : Game :=
  let '(m, g1) :=
    alloc (OMushroom (Mushroom.new 110 120)) CentipedeGame_init in
  set_scene_engine true (add_object m g1).

(** A scene, attached to its engine, with one flea. *)
Definition flea_scene : Game :=
  let '(f, g1) := alloc (OFlea (Flea.new 300)) CentipedeGame_init in
  set_scene_engine true (add_object f g1).

(** ** Wave scaling *)

(** The game after the levels completed with the draws [rnds]. *)
Definition advance (rnds : list Draws) (g : Game) : Game :=
  foldl (λ g' rnd, _next_level rnd g') g rnds.

(** The game of wave [1 + length rnds], from a fresh engine. *)
Definition wave_game (rnds : list Draws) : Game :=
  advance rnds CentipedeGame_init.

Inductive Category := FleaCat | SpiderCat | ScorpionCat.

Definition rate (c : Category) (g : Game) : float :=
  match c with
  | FleaCat => flea_spawn_rate g
  | SpiderCat => spider_spawn_rate g
  | ScorpionCat => scorpion_spawn_rate g
  end.

Definition timer (c : Category) (g : Game) : float :=
  match c with
  | FleaCat => flea_spawn_timer g
  | SpiderCat => spider_spawn_timer g
  | ScorpionCat => scorpion_spawn_timer g
  end.

(** The literals of [__init__] and [_next_level]. *)
Definition rate_base (c : Category) : float :=
  match c with FleaCat => 8 | SpiderCat => 15 | ScorpionCat => 25 end.
Definition rate_floor (c : Category) : float :=
  match c with FleaCat => 5 | SpiderCat => 10 | ScorpionCat => 15 end.
Definition rate_decrement (c : Category) : float :=
  match c with FleaCat => 0.5 | SpiderCat => 1 | ScorpionCat => 2 end.

(** [max] on rationals. *)
Definition Qmax (a b : Q) : Q := if Qle_bool a b then b else a.

(** The closed form of the specification, after [n] completed waves, as
    the rational number [max(floor, base - n * decrement)]. *)
Definition scaled_rate (c : Category) (n : nat) : Q :=
  Qmax (F2Q (rate_floor c))
       (F2Q (rate_base c) - inject_Z (Z.of_nat n) * F2Q (rate_decrement c))%Q.

(** The rates of the waves before the floor is reached, in order. *)
Definition rate_table (c : Category) : list float :=
  match c with
  | FleaCat => [8; 7.5; 7; 6.5; 6; 5.5]
  | SpiderCat => [15; 14; 13; 12; 11]
  | ScorpionCat => [25; 23; 21; 19; 17]
  end%float.

(** The rate that the table gives after [n] completed waves. *)
Definition table_rate (c : Category) (n : nat) : float :=
  default (rate_floor c) (rate_table c !! n).

(** ** Spawning *)

(** The test [timer >= rate] that [_spawn_enemies] makes for the category
    [c] in a frame of length [dt], as binary64 decides it. *)
Definition due (c : Category) (dt : float) (g : Game) : bool :=
  (rate c g <=? timer c g + dt)%float.

(** The population guard of the flea: fewer than 3 live mushrooms below
    the line [y = 400]. *)
Definition flea_guard (g : Game) : bool :=
  (length (filter (λ m, (400 <? Vector2.y (Mushroom.position m))%float = true)
                  (live_mushrooms g)) <? 3)%nat.

Definition is_flea (o : Obj) : bool :=
  match o with OFlea _ => true | _ => false end.
Definition is_spider (o : Obj) : bool :=
  match o with OSpider _ => true | _ => false end.
Definition is_scorpion (o : Obj) : bool :=
  match o with OScorpion _ => true | _ => false end.

(** The objects of the scene, in scene order. *)
Definition scene_objects (g : Game) : list Obj :=
  omap (λ r, heap g !! r) (game_objects g).

(** Number of objects of the scene that satisfy [p]. *)
Definition count_kind (p : Obj → bool) (g : Game) : nat :=
  length (filter (λ o, p o = true) (scene_objects g)).

(** Every reference of the scene list points into the store. *)
Definition scene_wf (g : Game) : Prop :=
  ∀ r, r ∈ game_objects g → is_Some (heap g !! r).

(** The player was created: the attribute [player] exists and refers to
    an object of the store. *)
Definition player_set (g : Game) : Prop :=
  ∃ p, player g = Some p ∧ is_Some (heap g !! p).

(** A scene with its player and three live mushrooms in the player area,
    the flea timer half a second short of its rate. *)
Definition crowded_scene : Game :=
  let add o g := let '(r, g1) := alloc o g in add_object r g1 in
  let '(p, g0) := alloc (OBugBlaster BugBlaster.new) CentipedeGame_init in
  let g1 := add_object p (set_player (Some p) g0) in
  let g2 := add (OMushroom (Mushroom.new 100 420)) g1 in
  let g3 := add (OMushroom (Mushroom.new 200 440)) g2 in
  let g4 := add (OMushroom (Mushroom.new 300 460)) g3 in
  set_spawn_timers 7.5 0 0 (set_scene_engine true g4).

(** The largest double below one half: a frame a hair short of half a
    second. *)
Definition short_half : float := 0x1.fffffffffffffp-2.

(** ** Concrete games *)

(** The game after [setup_game] with an empty mushroom field: the player
    and a chain of twelve segments entering from the left. *)
Definition spawned_game : Game :=
  setup_game (λ _ _, false) true CentipedeGame_init.

(** A segment in the middle of the field that has just started to
    descend. *)
Definition descending_segment : CentipedeSegment.t :=
  CentipedeSegment._start_descent
    (CentipedeSegment.set_position (Vector2.mk 16 50)
       (CentipedeSegment.new true)).

(** The double of the literal [0.016], a frame at about 60 per second. *)
Definition frame_60 : float := 0x1.0624dd2f1a9fcp-6.

(** Draws of one frame. *)
Definition some_draws : Draws := mkDraws 300 1 500 (-1) 200 true.

(** * Properties *)

(** ** Python list operations *)

Lemma py_in_true x l : py_in x l = true ↔ x ∈ l.
Proof. unfold py_in. rewrite bool_decide_eq_true. done. Qed.

Lemma py_in_false x l : py_in x l = false → x ∉ l.
Proof. unfold py_in. by rewrite bool_decide_eq_false. Qed.

Lemma py_index_Some x l k :
  py_index x l = Some k →
  l !! k = Some x ∧ py_remove x l = Some (take k l ++ drop (S k) l).
Proof.
  revert k. induction l as [|y l IH]; intros k; simpl; [done|].
  destruct (decide (x = y)) as [->|Hne].
  - intros [= <-]. done.
  - destruct (py_index x l) as [j|] eqn:Hj; simpl; [|done].
    intros [= <-]. destruct (IH j eq_refl) as [H1 H2].
    split; [done|]. rewrite H2. done.
Qed.

Lemma py_index_elem_of x l : x ∈ l → is_Some (py_index x l).
Proof.
  induction l as [|y l IH]; simpl.
  - intros H. inversion H.
  - intros H. destruct (decide (x = y)); [eauto|].
    apply elem_of_cons in H as [?|H]; [done|].
    destruct (IH H) as [j ->]. simpl. eauto.
Qed.

Lemma py_index_NoDup x l k :
  NoDup l → l !! k = Some x → py_index x l = Some k.
Proof.
  revert k. induction l as [|y l IH]; intros k Hnd Hk; [done|].
  apply NoDup_cons in Hnd as [Hy Hnd]. simpl.
  destruct k as [|k]; simpl in Hk.
  - injection Hk as ->. rewrite decide_True; done.
  - rewrite decide_False.
    + rewrite (IH k Hnd Hk). done.
    + intros ->. apply Hy. eapply list_elem_of_lookup_2. done.
Qed.

Lemma for_each_app {A} (body : A → Game → option Game) l1 l2 g :
  for_each body (l1 ++ l2) g = for_each body l1 g ≫= for_each body l2.
Proof.
  revert g. induction l1 as [|a l1 IH]; intros g; simpl; [done|].
  destruct (body a g) as [g'|]; simpl; [apply IH|done].
Qed.

Lemma split_loop_body_other k i g :
  (i < length (centipede_segments g))%nat → i ≠ (k - 1)%nat →
  split_loop_body k i g = Some g.
Proof.
  intros Hlt Hne. unfold split_loop_body.
  destruct (Nat.ltb_spec i (length (centipede_segments g))) as [_|]; [|lia].
  destruct (lookup_lt_is_Some_2 _ _ Hlt) as [r ->]. simpl.
  by destruct (Nat.eqb_spec i (k - 1)).
Qed.

Lemma split_loop_body_last k g :
  (k - 1 < length (centipede_segments g))%nat →
  split_loop_body k (k - 1) g =
  centipede_segments g !! (k - 1)%nat ≫= λ r, promote r g.
Proof.
  intros Hlt. unfold split_loop_body.
  destruct (Nat.ltb_spec (k - 1) (length (centipede_segments g))) as [_|]; [|lia].
  by rewrite Nat.eqb_refl.
Qed.

Lemma split_loop_idle k a n g :
  (a + n ≤ length (centipede_segments g))%nat →
  (a + n ≤ k - 1)%nat →
  for_each (split_loop_body k) (seq a n) g = Some g.
Proof.
  revert a. induction n as [|n IH]; intros a Hlen Hk; simpl; [done|].
  rewrite split_loop_body_other by lia. simpl. apply IH; lia.
Qed.

Lemma split_loop k g :
  (0 < k)%nat → (k ≤ length (centipede_segments g))%nat →
  for_each (split_loop_body k) (seq 0 k) g =
  centipede_segments g !! (k - 1)%nat ≫= λ r, promote r g.
Proof.
  intros Hk Hlen.
  replace k with ((k - 1) + 1)%nat at 2 by lia.
  rewrite seq_app, for_each_app, split_loop_idle by lia.
  simpl. rewrite split_loop_body_last by lia.
  destruct (centipede_segments g !! (k - 1)%nat) as [r|]; simpl; [|done].
  by destruct (promote r g).
Qed.

Lemma head_flag_store g r o r' :
  head_flag (store r o g) r' =
  if decide (r = r')
  then match o with OSegment s => CentipedeSegment.is_head s | _ => false end
  else head_flag g r'.
Proof.
  unfold head_flag, store. simpl. rewrite lookup_insert.
  destruct (decide (r = r')); done.
Qed.

Lemma promote_segment g r s :
  heap g !! r = Some (OSegment s) →
  promote r g = Some (store r (OSegment (CentipedeSegment.set_is_head true s)) g).
Proof. intros H. unfold promote. by rewrite H. Qed.

Lemma split_result g seg k :
  chain_wf g →
  py_index seg (centipede_segments g) = Some k →
  let rem := take k (centipede_segments g) ++ drop (S k) (centipede_segments g) in
  ∃ g', _split_centipede_at_segment seg g = Some g' ∧
        centipede_segments g' = rem ∧
        game_objects g' = game_objects g ∧
        score g' = score g ∧
        ∀ r, head_flag g' r = head_flag g r || bool_decide (r ∈ promoted k rem).
Proof.
  intros Hwf Hidx rem.
  destruct (py_index_Some _ _ _ Hidx) as [Hk Hrem].
  assert (Hin : seg ∈ centipede_segments g) by (eapply list_elem_of_lookup_2; done).
  assert (Hlen : (k < length (centipede_segments g))%nat) by (eapply lookup_lt_Some; done).
  assert (Hrlen : length rem = (length (centipede_segments g) - 1)%nat).
  { unfold rem. rewrite length_app, length_take, length_drop. lia. }
  assert (Hsub : ∀ r, r ∈ rem → r ∈ centipede_segments g).
  { intros r. unfold rem. rewrite elem_of_app.
    intros [H|H]; [by eapply subseteq_take | by eapply subseteq_drop]. }
  unfold _split_centipede_at_segment.
  apply py_in_true in Hin as Hpin. rewrite Hpin, Hidx, Hrem. simpl.
  fold rem.
  set (g1 := set_centipede_segments rem g).
  (* the loop *)
  assert (∃ g2, (if (0 <? k)%nat
                 then for_each (split_loop_body k) (seq 0 k) g1
                 else Some g1) = Some g2 ∧
                centipede_segments g2 = rem ∧
                game_objects g2 = game_objects g ∧ score g2 = score g ∧
                (∀ r, r ∈ rem → ∃ s, heap g2 !! r = Some (OSegment s)) ∧
                ∀ r, head_flag g2 r = head_flag g r ||
                       bool_decide (r ∈ match k with O => [] | S k' => option_list (rem !! k') end))
    as (g2 & -> & Hsegs2 & Hobj2 & Hsc2 & Hwf2 & Hflag2).
  { destruct k as [|k'].
    - simpl. exists g1. repeat split; try done.
      + intros r Hr. apply Hwf, Hsub, Hr.
      + intros r. unfold head_flag. simpl. by rewrite orb_false_r.
    - replace (0 <? S k')%nat with true by done.
      rewrite split_loop by (simpl; lia).
      simpl. rewrite Nat.sub_0_r.
      destruct (lookup_lt_is_Some_2 rem k') as [r0 Hr0]; [lia|].
      rewrite Hr0. simpl.
      destruct (Hwf r0) as [s0 Hs0].
      { apply Hsub. eapply list_elem_of_lookup_2. done. }
      rewrite (promote_segment g1 r0 s0) by done.
      eexists. split; [done|]. repeat split; try done.
      + intros r Hr. unfold store. simpl. rewrite lookup_insert.
        destruct (decide (r0 = r)); [eauto|]. apply Hwf, Hsub, Hr.
      + intros r. rewrite head_flag_store. simpl.
        destruct (decide (r0 = r)) as [->|Hne].
        * rewrite bool_decide_eq_true_2; [by rewrite orb_true_r|].
          by apply list_elem_of_singleton.
        * rewrite bool_decide_eq_false_2; [by rewrite orb_false_r|].
          rewrite list_elem_of_singleton. congruence. }
  simpl. rewrite Hsegs2.
  unfold promoted.
  destruct rem as [|first rest] eqn:Hremeq.
  - exists g2. repeat split; try done.
    intros r. rewrite Hflag2. simpl. by rewrite app_nil_r.
  - destruct (Hwf2 first) as [s Hs]; [by left|]. rewrite Hs.
    destruct (CentipedeSegment.is_head s) eqn:Hhead; simpl.
    + exists g2. repeat split; try done.
      intros r. destruct (decide (r = first)) as [->|Hne].
      * rewrite bool_decide_eq_true_2
          by (apply elem_of_app; right; by apply list_elem_of_singleton).
        rewrite orb_true_r.
        unfold head_flag. by rewrite Hs.
      * rewrite Hflag2. f_equal. apply bool_decide_ext.
        rewrite elem_of_app, (list_elem_of_singleton r first).
        split; [by left | by intros [?|?]].
    + rewrite (promote_segment g2 first s) by done.
      eexists. split; [done|]. repeat split; try done.
      intros r. rewrite head_flag_store. simpl.
      destruct (decide (first = r)) as [->|Hne].
      * rewrite bool_decide_eq_true_2
          by (apply elem_of_app; right; by apply list_elem_of_singleton).
        by rewrite orb_true_r.
      * rewrite Hflag2. f_equal. apply bool_decide_ext.
        rewrite elem_of_app, (list_elem_of_singleton r first).
        split; [by left | by intros [?|?]].
Qed.

(** ** Fragmentation *)

(** C9: a split requested for a segment that is not in the chain returns
    normally and leaves the game as it was: the chain has the same
    members in the same order and every head flag is unchanged. *)
Theorem split_absent_is_noop (g : Game) (seg : nat) :
  seg ∉ centipede_segments g →
  ∃ g', _split_centipede_at_segment seg g = Some g' ∧
        centipede_segments g' = centipede_segments g ∧
        (∀ r, head_flag g' r = head_flag g r) ∧
        g' = g.
Proof.
  intros Hnin. exists g. repeat split; try done.
  unfold _split_centipede_at_segment.
  destruct (py_in seg (centipede_segments g)) eqn:Hin; [|done].
  apply py_in_true in Hin. done.
Qed.

(** C2: splitting a chain of length N at the segment of index k removes
    exactly that segment: the elements below k form the head group
    (length k), those above k the tail group (length N-1-k), and N-1
    segments survive. *)
Theorem split_conservation (g : Game) (k : nat) (seg : nat) :
  chain_wf g →
  NoDup (centipede_segments g) →
  centipede_segments g !! k = Some seg →
  ∃ g', _split_centipede_at_segment seg g = Some g' ∧
        head_subchain k g' = take k (centipede_segments g) ∧
        tail_subchain k g' = drop (S k) (centipede_segments g) ∧
        centipede_segments g' = head_subchain k g' ++ tail_subchain k g' ∧
        length (head_subchain k g') = k ∧
        length (tail_subchain k g') = (length (centipede_segments g) - 1 - k)%nat ∧
        length (centipede_segments g') = (length (centipede_segments g) - 1)%nat ∧
        seg ∉ centipede_segments g'.
Proof.
  intros Hwf Hnd Hk.
  pose proof (py_index_NoDup _ _ _ Hnd Hk) as Hidx.
  destruct (split_result g seg k Hwf Hidx) as (g' & Hsplit & Hsegs & _).
  pose proof (lookup_lt_Some _ _ _ Hk) as Hlt.
  exists g'. split; [done|].
  unfold head_subchain, tail_subchain. rewrite Hsegs.
  assert (Htk : length (take k (centipede_segments g)) = k)
    by (rewrite length_take; lia).
  rewrite take_app_length' by done.
  rewrite drop_app_length' by done.
  repeat split; try done.
  - rewrite length_drop. lia.
  - rewrite length_app, length_take, length_drop. lia.
  - rewrite <- (take_drop_middle _ _ _ Hk) in Hnd.
    apply NoDup_app in Hnd as (_ & Hdis & Hnd2).
    apply NoDup_cons in Hnd2 as [Hnot _].
    rewrite elem_of_app. intros [H|H]; [|done].
    apply (Hdis _ H). left.
Qed.







(** ** Locomotion *)

Lemma handle_descent_complete dt s :
  reaches dt s →
  CentipedeSegment._handle_descent dt s =
  CentipedeSegment.mk
    (CentipedeSegment.position s) (CentipedeSegment.is_destroyed s)
    (CentipedeSegment.is_head s) (CentipedeSegment.speed s)
    (Vector2.mk (- Vector2.x (CentipedeSegment.direction s))%float
                (Vector2.y (CentipedeSegment.direction s)))
    (CentipedeSegment.descent_distance s) false 0 false
    (CentipedeSegment.in_player_area s).
Proof.
  unfold reaches, CentipedeSegment._handle_descent, incremented_progress.
  destruct s as [pos dead hd sp dir dist desc prog pois area]. cbn.
  intros ->. by destruct pois.
Qed.

Lemma handle_descent_continue dt s :
  below dt s →
  CentipedeSegment._handle_descent dt s =
  CentipedeSegment.mk
    (Vector2.mk (Vector2.x (CentipedeSegment.position s))
                (Vector2.y (CentipedeSegment.position s)
                 + CentipedeSegment.speed s * 2 * dt)%float)
    (CentipedeSegment.is_destroyed s)
    (CentipedeSegment.is_head s) (CentipedeSegment.speed s)
    (CentipedeSegment.direction s)
    (CentipedeSegment.descent_distance s)
    (CentipedeSegment.is_descending s)
    (incremented_progress dt s)
    (CentipedeSegment.is_poisoned_descent s)
    (CentipedeSegment.in_player_area s).
Proof.
  unfold below, CentipedeSegment._handle_descent, incremented_progress.
  destruct s as [pos dead hd sp dir dist desc prog pois area]. cbn.
  by intros ->.
Qed.

(** [_enter_player_area] touches the speed and its own marker only. *)
Lemma enter_player_area_frame s :
  let s' := CentipedeSegment._enter_player_area s in
  CentipedeSegment.position s' = CentipedeSegment.position s ∧
  CentipedeSegment.is_destroyed s' = CentipedeSegment.is_destroyed s ∧
  CentipedeSegment.is_head s' = CentipedeSegment.is_head s ∧
  CentipedeSegment.direction s' = CentipedeSegment.direction s ∧
  CentipedeSegment.descent_distance s' = CentipedeSegment.descent_distance s ∧
  CentipedeSegment.is_descending s' = CentipedeSegment.is_descending s ∧
  CentipedeSegment.descend_progress s' = CentipedeSegment.descend_progress s ∧
  CentipedeSegment.is_poisoned_descent s' =
    CentipedeSegment.is_poisoned_descent s.
Proof.
  unfold CentipedeSegment._enter_player_area.
  by destruct (CentipedeSegment.in_player_area s).
Qed.


Lemma update_descending ms dt s :
  CentipedeSegment.is_descending s = true →
  CentipedeSegment.update ms dt s =
  player_area_step (CentipedeSegment._handle_descent dt s).
Proof. intros H. unfold CentipedeSegment.update. by rewrite H. Qed.

Lemma player_area_step_frame s :
  let s' := player_area_step s in
  CentipedeSegment.position s' = CentipedeSegment.position s ∧
  CentipedeSegment.is_destroyed s' = CentipedeSegment.is_destroyed s ∧
  CentipedeSegment.is_head s' = CentipedeSegment.is_head s ∧
  CentipedeSegment.direction s' = CentipedeSegment.direction s ∧
  CentipedeSegment.descent_distance s' = CentipedeSegment.descent_distance s ∧
  CentipedeSegment.is_descending s' = CentipedeSegment.is_descending s ∧
  CentipedeSegment.descend_progress s' = CentipedeSegment.descend_progress s ∧
  CentipedeSegment.is_poisoned_descent s' =
    CentipedeSegment.is_poisoned_descent s.
Proof.
  unfold player_area_step.
  destruct (_ <? _)%float; [apply enter_player_area_frame | done].
Qed.

Lemma player_area_step_speed s :
  let s' := player_area_step s in
  let entering :=
    (400 <? Vector2.y (CentipedeSegment.position s))%float
    && negb (CentipedeSegment.in_player_area s) in
  CentipedeSegment.speed s' =
    (if entering
     then (CentipedeSegment.speed s * 0x1.6666666666666p-1)%float
     else CentipedeSegment.speed s) ∧
  CentipedeSegment.in_player_area s' =
    CentipedeSegment.in_player_area s
    || (400 <? Vector2.y (CentipedeSegment.position s))%float.
Proof.
  unfold player_area_step, CentipedeSegment._enter_player_area.
  destruct s as [[px py] dead hd sp dir dist desc prog pois area]. cbn.
  destruct (400 <? py)%float, area; done.
Qed.

(** A descending segment is updated without a look at the scene or at
    its own horizontal coordinate. *)
Lemma descending_update_ignores_scene ms ms' x' dt s :
  CentipedeSegment.is_descending s = true →
  CentipedeSegment.update ms' dt (at_x x' s) =
  at_x x' (CentipedeSegment.update ms dt s).
Proof.
  intros H. rewrite !update_descending by done.
  unfold player_area_step, CentipedeSegment._handle_descent,
    CentipedeSegment._enter_player_area, at_x.
  destruct s as [[px py] dead hd sp dir dist desc prog pois area]. cbn.
  destruct (dist <=? prog + sp * 2 * dt)%float; cbn.
  - destruct pois; cbn; destruct (400 <? py)%float; cbn;
      destruct area; done.
  - destruct (400 <? py + sp * 2 * dt)%float; cbn; destruct area; done.
Qed.

Lemma run_all_below ms dts s :
  CentipedeSegment.is_descending s = true →
  all_below ms dts s →
  CentipedeSegment.is_descending (run ms dts s) = true ∧
  CentipedeSegment.direction (run ms dts s) = CentipedeSegment.direction s.
Proof.
  revert s. induction dts as [|dt rest IH]; intros s Hd Hall; [done|].
  destruct Hall as [Hb Hrest]. simpl.
  pose proof (player_area_step_frame (CentipedeSegment._handle_descent dt s))
    as (_ & _ & _ & Hdir & _ & Hdesc & _).
  rewrite <- update_descending with (ms := ms) in Hdir, Hdesc by done.
  rewrite handle_descent_continue in Hdir, Hdesc by done. simpl in *.
  destruct (IH _ (eq_trans Hdesc Hd) Hrest) as [H1 H2].
  split; [done|]. by rewrite H2.
Qed.

(** C4: a descending segment keeps its direction while, frame after
    frame, the test of the incremented progress against the descent
    distance fails as binary64 decides it; on the first frame where the
    test succeeds the segment is moving again, its progress is 0.0 and
    the horizontal component of its direction is the negation of what it
    was when the descent began. *)
Theorem descent_completion
    (ms : list Mushroom.t) (dts : list float) (dt : float)
    (s : CentipedeSegment.t) :
  CentipedeSegment.is_descending s = true →
  all_below ms dts s →
  reaches dt (run ms dts s) →
  let s1 := run ms dts s in
  let s2 := CentipedeSegment.update ms dt s1 in
  CentipedeSegment.is_descending s1 = true ∧
  CentipedeSegment.direction s1 = CentipedeSegment.direction s ∧
  CentipedeSegment.is_descending s2 = false ∧
  CentipedeSegment.is_poisoned_descent s2 = false ∧
  CentipedeSegment.descend_progress s2 = 0%float ∧
  Vector2.x (CentipedeSegment.direction s2) =
    (- Vector2.x (CentipedeSegment.direction s))%float ∧
  Vector2.y (CentipedeSegment.direction s2) =
    Vector2.y (CentipedeSegment.direction s) ∧
  CentipedeSegment.position s2 = CentipedeSegment.position s1.
Proof.
  intros Hd Hall Hreach s1 s2.
  destruct (run_all_below ms dts s Hd Hall) as [Hd1 Hdir1].
  fold s1 in Hd1, Hdir1, Hreach.
  split; [done|]. split; [done|].
  pose proof (player_area_step_frame (CentipedeSegment._handle_descent dt s1))
    as (Hpos & _ & _ & Hdir & _ & Hdesc & Hprog & Hpois).
  rewrite <- update_descending with (ms := ms) in Hpos, Hdir, Hdesc, Hprog, Hpois
    by done.
  fold s2 in Hpos, Hdir, Hdesc, Hprog, Hpois.
  rewrite handle_descent_complete in Hpos, Hdir, Hdesc, Hprog, Hpois by done.
  simpl in *. rewrite Hdir, Hdir1. done.
Qed.

(** C10: a frame of a descending segment in which the test of the
    incremented progress against the descent distance fails, as binary64
    decides it, adds the rounded [speed * 2 * dt] to the vertical
    coordinate and to the progress and changes nothing else, but for the
    speed cut on the first entry into the player area; the result does
    not depend on the mushrooms of the scene nor on the horizontal
    coordinate, and in the game only the segment's own object is
    written. *)
Theorem descending_tick_frame
    (ms : list Mushroom.t) (dt : float) (s : CentipedeSegment.t) :
  CentipedeSegment.is_descending s = true →
  below dt s →
  let s' := CentipedeSegment.update ms dt s in
  let entering :=
    (400 <? Vector2.y (CentipedeSegment.position s'))%float
    && negb (CentipedeSegment.in_player_area s) in
  (Vector2.x (CentipedeSegment.position s') =
     Vector2.x (CentipedeSegment.position s) ∧
   Vector2.y (CentipedeSegment.position s') =
     (Vector2.y (CentipedeSegment.position s)
      + CentipedeSegment.speed s * 2 * dt)%float ∧
   CentipedeSegment.descend_progress s' =
     (CentipedeSegment.descend_progress s
      + CentipedeSegment.speed s * 2 * dt)%float) ∧
  (CentipedeSegment.is_destroyed s' = CentipedeSegment.is_destroyed s ∧
   CentipedeSegment.is_head s' = CentipedeSegment.is_head s ∧
   CentipedeSegment.direction s' = CentipedeSegment.direction s ∧
   CentipedeSegment.descent_distance s' = CentipedeSegment.descent_distance s ∧
   CentipedeSegment.is_descending s' = true ∧
   CentipedeSegment.is_poisoned_descent s' =
     CentipedeSegment.is_poisoned_descent s) ∧
  (CentipedeSegment.speed s' =
     (if entering
      then (CentipedeSegment.speed s * 0x1.6666666666666p-1)%float
      else CentipedeSegment.speed s) ∧
   CentipedeSegment.in_player_area s' =
     CentipedeSegment.in_player_area s
     || (400 <? Vector2.y (CentipedeSegment.position s'))%float) ∧
  (∀ ms' x', CentipedeSegment.update ms' dt (at_x x' s) = at_x x' s') ∧
  (∀ g self, heap g !! self = Some (OSegment s) →
             CentipedeSegment_update self dt g =
             Some (store self (OSegment s') g)).
Proof.
  intros Hd Hb s' entering.
  pose proof (player_area_step_frame (CentipedeSegment._handle_descent dt s))
    as (Hpos & Hdead & Hhead & Hdir & Hdist & Hdesc & Hprog & Hpois).
  pose proof (player_area_step_speed (CentipedeSegment._handle_descent dt s))
    as (Hspeed & Harea).
  rewrite <- update_descending with (ms := ms) in
    Hpos, Hdead, Hhead, Hdir, Hdist, Hdesc, Hprog, Hpois, Hspeed, Harea by done.
  fold s' in Hpos, Hdead, Hhead, Hdir, Hdist, Hdesc, Hprog, Hpois,
    Hspeed, Harea.
  rewrite handle_descent_continue in
    Hpos, Hdead, Hhead, Hdir, Hdist, Hdesc, Hprog, Hpois, Hspeed, Harea by done.
  simpl in *.
  split; [by rewrite Hpos, Hprog|].
  split; [by rewrite Hdesc|].
  split.
  { unfold entering. rewrite Hpos. simpl. done. }
  split.
  { intros ms' x'. by apply descending_update_ignores_scene. }
  intros g self Hself.
  unfold CentipedeSegment_update, s'. rewrite Hself.
  by rewrite !(update_descending _ dt s).
Qed.

Lemma check_mushroom_collision_first ms p s :
  CentipedeSegment._check_mushroom_collision ms p s =
  match first_overlap ms p with
  | Some m => (true, if Mushroom.is_poisoned m
                     then CentipedeSegment._start_poison_descent s else s)
  | None => (false, s)
  end.
Proof.
  unfold first_overlap.
  induction ms as [|m ms IH]; simpl; [done|].
  by destruct (Vector2.closer_than p (Mushroom.position m) 12).
Qed.

(** What [update] does to a moving segment whose prospective position
    is inside the field and meets a poisoned mushroom first: the poison
    descent is started and [_start_descent] then runs on top of it, so
    the segment is left in the normal descent. *)
Lemma poisoned_collision_starts_descent ms dt s m :
  CentipedeSegment.is_descending s = false →
  (Vector2.x (prospective dt s) <=? 16)%float = false →
  (784 <=? Vector2.x (prospective dt s))%float = false →
  first_overlap ms (prospective dt s) = Some m →
  Mushroom.is_poisoned m = true →
  CentipedeSegment.update ms dt s =
  player_area_step
    (CentipedeSegment.mk
       (CentipedeSegment.position s) (CentipedeSegment.is_destroyed s)
       (CentipedeSegment.is_head s) (CentipedeSegment.speed s)
       (Vector2.mk 0 1) (CentipedeSegment.descent_distance s)
       true 0 true (CentipedeSegment.in_player_area s)).
Proof.
  intros Hd Hl Hr Hm Hp.
  unfold CentipedeSegment.update. rewrite Hd.
  unfold CentipedeSegment._handle_horizontal_movement.
  fold (prospective dt s). cbv zeta. rewrite Hl, Hr. simpl orb. cbv iota.
  rewrite check_mushroom_collision_first, Hm, Hp.
  done.
Qed.

(** C3 fails on the code.  In [poison_scene] the prospective position of
    the moving segment overlaps the poisoned mushroom.  After the frame
    the direction is straight down and the poison marker is set, but
    the segment is in the normal descent with its progress at 0; the
    next frame advances the progress accumulator, and the frame after
    that completes the descent and clears the poison marker. *)
Theorem poison_descent_runs_normal_descent :
  ∃ seg g1 g2 g3 s0 s1 s2 s3,
    centipede_segments poison_scene = [seg] ∧
    heap poison_scene !! seg = Some (OSegment s0) ∧
    CentipedeSegment.is_descending s0 = false ∧
    (∃ m, first_overlap (live_mushrooms poison_scene)
            (prospective 0.125 s0) = Some m ∧
          Mushroom.is_poisoned m = true) ∧
    CentipedeSegment_update seg 0.125 poison_scene = Some g1 ∧
    heap g1 !! seg = Some (OSegment s1) ∧
    CentipedeSegment.direction s1 = Vector2.mk 0 1 ∧
    CentipedeSegment.is_poisoned_descent s1 = true ∧
    CentipedeSegment.is_descending s1 = true ∧
    CentipedeSegment.descend_progress s1 = 0%float ∧
    CentipedeSegment_update seg 0.125 g1 = Some g2 ∧
    heap g2 !! seg = Some (OSegment s2) ∧
    CentipedeSegment.is_descending s2 = true ∧
    CentipedeSegment.descend_progress s2 = 12.5%float ∧
    CentipedeSegment_update seg 0.125 g2 = Some g3 ∧
    heap g3 !! seg = Some (OSegment s3) ∧
    CentipedeSegment.is_descending s3 = false ∧
    CentipedeSegment.is_poisoned_descent s3 = false.
Proof.
  exists O. do 7 eexists.
  split; [by vm_compute|].
  split; [by vm_compute|].
  split; [by vm_compute|].
  split; [eexists; split; by vm_compute|].
  split; [vm_compute; reflexivity|].
  split; [by vm_compute|].
  split; [by vm_compute|].
  split; [by vm_compute|].
  split; [by vm_compute|].
  split; [by vm_compute|].
  split; [vm_compute; reflexivity|].
  split; [by vm_compute|].
  split; [by vm_compute|].
  split; [by vm_compute|].
  split; [vm_compute; reflexivity|].
  split; [by vm_compute|].
  split; by vm_compute.
Qed.

(** ** Hits *)

Lemma mushroom_inv_new x y : mushroom_inv (Mushroom.new x y).
Proof. split; simpl; [lia|]. intros _. lia. Qed.

Lemma mushroom_inv_heal m :
  0 < Mushroom.max_hits m → mushroom_inv (Mushroom.heal m).
Proof. intros H. split; simpl; [lia|done]. Qed.

Lemma mushroom_inv_poison m : mushroom_inv m → mushroom_inv (Mushroom.poison m).
Proof. intros [H1 H2]. split; simpl; done. Qed.

(** One hit on a live mushroom that is not the last one. *)
Lemma Mushroom_hit_alive g self m :
  heap g !! self = Some (OMushroom m) →
  Mushroom.is_destroyed m = false →
  Mushroom.hits m + 1 < Mushroom.max_hits m →
  Mushroom_hit self g =
  Some (store self (OMushroom (Mushroom.set_hits (Mushroom.hits m + 1) m)) g).
Proof.
  intros Hm Ha Hlt. unfold Mushroom_hit. rewrite Hm, Ha. simpl.
  destruct (Z.leb_spec (Mushroom.max_hits m) (Mushroom.hits m + 1)); [lia|done].
Qed.

(** The hit that reaches [max_hits]. *)
Lemma Mushroom_hit_last g self m :
  heap g !! self = Some (OMushroom m) →
  Mushroom.is_destroyed m = false →
  Mushroom.max_hits m ≤ Mushroom.hits m + 1 →
  Mushroom_hit self g =
  Some (destroy self
          (let g1 := store self
                       (OMushroom (Mushroom.set_hits (Mushroom.hits m + 1) m))
                       g in
           if scene_engine g
           then set_score (score g + Mushroom.points m) g1 else g1)).
Proof.
  intros Hm Ha Hle. unfold Mushroom_hit. rewrite Hm, Ha. simpl.
  destruct (Z.leb_spec (Mushroom.max_hits m) (Mushroom.hits m + 1)); [done|lia].
Qed.

(** A hit on a destroyed mushroom changes nothing. *)
Lemma Mushroom_hit_destroyed g self m :
  heap g !! self = Some (OMushroom m) →
  Mushroom.is_destroyed m = true →
  Mushroom_hit self g = Some g.
Proof. intros Hm Hd. unfold Mushroom_hit. by rewrite Hm, Hd. Qed.

(** A hit on a destroyed segment changes nothing. *)
Lemma CentipedeSegment_hit_destroyed g self s :
  heap g !! self = Some (OSegment s) →
  CentipedeSegment.is_destroyed s = true →
  CentipedeSegment_hit self g = Some g.
Proof. intros Hs Hd. unfold CentipedeSegment_hit. by rewrite Hs, Hd. Qed.

Lemma Mushroom_hit_inv g self m g' m' :
  heap g !! self = Some (OMushroom m) →
  mushroom_inv m →
  Mushroom_hit self g = Some g' →
  heap g' !! self = Some (OMushroom m') →
  mushroom_inv m'.
Proof.
  intros Hm [H0 Hinv] Hhit Hm'.
  destruct (Mushroom.is_destroyed m) eqn:Hd.
  - rewrite (Mushroom_hit_destroyed g self m) in Hhit by done.
    injection Hhit as <-. rewrite Hm in Hm'. injection Hm' as <-.
    split; [done|]. by rewrite Hd.
  - destruct (Z.le_gt_cases (Mushroom.max_hits m) (Mushroom.hits m + 1)).
    + rewrite (Mushroom_hit_last g self m) in Hhit by done.
      injection Hhit as <-. revert Hm'.
      unfold destroy, store. destruct (scene_engine g); simpl;
        rewrite lookup_alter_eq, lookup_insert_eq; simpl;
        intros [= <-]; (split; simpl; [lia|done]).
    + rewrite (Mushroom_hit_alive g self m) in Hhit by (done || lia).
      injection Hhit as <-. revert Hm'.
      unfold store. simpl. rewrite lookup_insert_eq.
      intros [= <-]. split; simpl; [lia|]. intros _. lia.
Qed.

Lemma hit_times_alive g self m n :
  heap g !! self = Some (OMushroom m) →
  Mushroom.is_destroyed m = false →
  Mushroom.hits m = 0 →
  Z.of_nat n < Mushroom.max_hits m →
  ∃ g', hit_times n self g = Some g' ∧
        heap g' !! self =
          Some (OMushroom (Mushroom.set_hits (Z.of_nat n) m)) ∧
        score g' = score g ∧ scene_engine g' = scene_engine g.
Proof.
  intros Hm Ha H0. induction n as [|n IH]; intros Hlt.
  - exists g. repeat split; try done. rewrite Hm.
    destruct m; simpl in *. by subst.
  - destruct IH as (g1 & Hg1 & Hm1 & Hs1 & He1); [lia|].
    unfold hit_times in *. simpl. rewrite Hg1. simpl.
    rewrite (Mushroom_hit_alive g1 self _ Hm1) by (simpl; (done || lia)).
    eexists. split; [done|]. unfold store. simpl.
    rewrite lookup_insert_eq. split; [|by split].
    do 2 f_equal. unfold Mushroom.set_hits. simpl. f_equal. lia.
Qed.

(** C5: a live mushroom obeys [hits < max_hits]; from a mushroom with no
    hits, any run of fewer than [max_hits] hits leaves it alive with
    one count per hit and the score as it was, the run of exactly
    [max_hits] hits destroys it and adds its point value to the score,
    and the invariant holds after any number of hits. *)
Theorem mushroom_durability (g : Game) (self : nat) (m : Mushroom.t) :
  heap g !! self = Some (OMushroom m) →
  mushroom_inv m →
  Mushroom.is_destroyed m = false →
  Mushroom.hits m = 0 →
  scene_engine g = true →
  (∀ n, Z.of_nat n < Mushroom.max_hits m →
        ∃ g' m', hit_times n self g = Some g' ∧
                 heap g' !! self = Some (OMushroom m') ∧
                 Mushroom.is_destroyed m' = false ∧
                 Mushroom.hits m' = Z.of_nat n ∧
                 score g' = score g) ∧
  (∃ g' m', hit_times (Z.to_nat (Mushroom.max_hits m)) self g = Some g' ∧
            heap g' !! self = Some (OMushroom m') ∧
            Mushroom.is_destroyed m' = true ∧
            score g' = score g + Mushroom.points m) ∧
  (∀ n g' m', hit_times n self g = Some g' →
              heap g' !! self = Some (OMushroom m') →
              mushroom_inv m').
Proof.
  intros Hm Hinv Ha H0 Heng.
  assert (Hmax : 0 < Mushroom.max_hits m).
  { destruct Hinv as [_ Hinv]. specialize (Hinv Ha). lia. }
  split; [|split].
  - intros n Hn.
    destruct (hit_times_alive g self m n Hm Ha H0 Hn)
      as (g' & Hg' & Hm' & Hs' & _).
    exists g', (Mushroom.set_hits (Z.of_nat n) m). by repeat split.
  - destruct (hit_times_alive g self m (Z.to_nat (Mushroom.max_hits m - 1))
                Hm Ha H0) as (g1 & Hg1 & Hm1 & Hs1 & He1); [lia|].
    replace (Z.to_nat (Mushroom.max_hits m))
      with (S (Z.to_nat (Mushroom.max_hits m - 1))) by lia.
    unfold hit_times in *. simpl. rewrite Hg1. simpl.
    rewrite (Mushroom_hit_last g1 self _ Hm1) by (simpl; (done || lia)).
    rewrite He1, Heng. do 2 eexists. split; [done|].
    unfold destroy, store. simpl.
    rewrite lookup_alter_eq, lookup_insert_eq. simpl.
    split; [done|]. split; [done|]. by rewrite Hs1.
  - intros n. induction n as [|n IH]; intros g' m'.
    + intros [= <-]. rewrite Hm. by intros [= <-].
    + unfold hit_times in *. simpl.
      destruct (Nat.iter n _ (Some g)) as [g1|] eqn:Hg1; [|done]. simpl.
      intros Hhit Hm'.
      assert (∃ o1, heap g1 !! self = Some o1) as [o1 Ho1].
      { unfold Mushroom_hit in Hhit.
        destruct (heap g1 !! self); [eauto|done]. }
      destruct o1 as [| |m1| | | |];
        try (unfold Mushroom_hit in Hhit; by rewrite Ho1 in Hhit).
      eapply (Mushroom_hit_inv g1 self m1); eauto.
Qed.

(** [Flea.hit] has no guard: a destroyed flea still counts the hit. *)
Lemma Flea_hit_destroyed_counts g self f :
  heap g !! self = Some (OFlea f) →
  Flea.is_destroyed f = true →
  ∃ g' f', Flea_hit self g = Some g' ∧
           heap g' !! self = Some (OFlea f') ∧
           Flea.hits_taken f' = Flea.hits_taken f + 1.
Proof.
  intros Hf _. unfold Flea_hit. rewrite Hf. simpl.
  destruct (Flea.hits_required f <=? Flea.hits_taken f + 1).
  - do 2 eexists. split; [done|]. unfold destroy, store.
    destruct (scene_engine g); simpl;
      rewrite lookup_alter_eq, lookup_insert_eq; by simpl.
  - do 2 eexists. split; [done|]. unfold store. simpl.
    by rewrite lookup_insert_eq.
Qed.

(** C7 fails on the code for fleas.  The flea of [flea_scene] is
    destroyed by its second hit, which awards 200 points; a third hit
    on the destroyed flea counts again and awards 200 more. *)
Theorem flea_hit_after_destroy :
  ∃ f g1 g2 g3 f2 f3,
    game_objects flea_scene = [f] ∧
    Flea_hit f flea_scene = Some g1 ∧
    Flea_hit f g1 = Some g2 ∧
    heap g2 !! f = Some (OFlea f2) ∧
    Flea.is_destroyed f2 = true ∧
    Flea.hits_taken f2 = 2 ∧
    score g2 = 200 ∧
    Flea_hit f g2 = Some g3 ∧
    heap g3 !! f = Some (OFlea f3) ∧
    Flea.hits_taken f3 = 3 ∧
    score g3 = 400.
Proof.
  exists O. do 5 eexists.
  split; [by vm_compute|].
  split; [vm_compute; reflexivity|].
  split; [vm_compute; reflexivity|].
  split; [by vm_compute|].
  split; [by vm_compute|].
  split; [by vm_compute|].
  split; [by vm_compute|].
  split; [vm_compute; reflexivity|].
  split; [by vm_compute|].
  split; by vm_compute.
Qed.

(** ** Wave scaling *)

Lemma Qmax_cases (a b : Q) :
  ((a <= b)%Q ∧ Qmax a b = b) ∨ ((b < a)%Q ∧ Qmax a b = a).
Proof.
  unfold Qmax. destruct (Qle_bool a b) eqn:H.
  - left. by apply Qle_bool_iff in H.
  - right. split; [|done]. apply Qnot_le_lt. intros H'.
    apply Qle_bool_iff in H'. congruence.
Qed.

Lemma spawn_segment_controller start_x i g :
  let g' := spawn_segment start_x i g in
  level g' = level g ∧ score g' = score g ∧ lives g' = lives g ∧
  (∀ c, rate c g' = rate c g) ∧ (∀ c, timer c g' = timer c g) ∧
  current_centipede_length g' = current_centipede_length g.
Proof. repeat split; by intros []. Qed.

Lemma spawn_centipede_controller choice g :
  let g' := spawn_centipede choice g in
  level g' = level g ∧ score g' = score g ∧ lives g' = lives g ∧
  (∀ c, rate c g' = rate c g) ∧ (∀ c, timer c g' = timer c g) ∧
  current_centipede_length g' = current_centipede_length g.
Proof.
  unfold spawn_centipede.
  generalize (seq 0 (Z.to_nat (current_centipede_length
                                 (set_centipede_segments [] g)))).
  intros l.
  assert (∀ g0, let g' := foldl (λ acc i,
                   spawn_segment (if choice then 50 else 750) i acc) g0 l in
            level g' = level g0 ∧ score g' = score g0 ∧ lives g' = lives g0 ∧
            (∀ c, rate c g' = rate c g0) ∧ (∀ c, timer c g' = timer c g0) ∧
            current_centipede_length g' = current_centipede_length g0) as H.
  { induction l as [|i l IH]; intros g0; simpl; [done|].
    destruct (IH (spawn_segment (if choice then 50 else 750) i g0))
      as (H1 & H2 & H3 & H4 & H5 & H6).
    destruct (spawn_segment_controller (if choice then 50 else 750) i g0)
      as (K1 & K2 & K3 & K4 & K5 & K6).
    repeat split; try congruence.
    all: intros c; by rewrite ?H4, ?H5. }
  destruct (H (set_centipede_segments [] g)) as (H1 & H2 & H3 & H4 & H5 & H6).
  repeat split; try done.
Qed.

Lemma next_level_rate rnd g c :
  rate c (_next_level rnd g) =
  py_max (rate_floor c) (rate c g - rate_decrement c)%float.
Proof.
  unfold _next_level.
  destruct (spawn_centipede_controller (centipede_choice rnd)
              (set_current_centipede_length
                 (Z.max 1 (current_centipede_length (set_level (level g + 1) g) - 1))
                 (set_level (level g + 1) g))) as (_ & _ & _ & Hr & _).
  pose proof (Hr FleaCat) as Hf. pose proof (Hr SpiderCat) as Hs.
  pose proof (Hr ScorpionCat) as Hc. cbn [rate] in Hf, Hs, Hc.
  destruct c; cbn [rate rate_floor rate_decrement flea_spawn_rate
                   spider_spawn_rate scorpion_spawn_rate set_spawn_rates];
    by rewrite ?Hf, ?Hs, ?Hc.
Qed.

Lemma next_level_level rnd g : level (_next_level rnd g) = level g + 1.
Proof.
  unfold _next_level.
  destruct (spawn_centipede_controller (centipede_choice rnd)
              (set_current_centipede_length
                 (Z.max 1 (current_centipede_length (set_level (level g + 1) g) - 1))
                 (set_level (level g + 1) g))) as (Hl & _).
  simpl in *. by rewrite Hl.
Qed.

Lemma advance_snoc rnds rnd g :
  advance (rnds ++ [rnd]) g = _next_level rnd (advance rnds g).
Proof. unfold advance. by rewrite foldl_app. Qed.

Lemma wave_game_level rnds :
  level (wave_game rnds) = 1 + Z.of_nat (length rnds).
Proof.
  induction rnds as [|rnd rnds IH] using rev_ind; [done|].
  unfold wave_game in *. rewrite advance_snoc, next_level_level, IH.
  rewrite length_app. simpl. lia.
Qed.

(** The literals as rationals. *)
Lemma rate_base_Q c :
  (F2Q (rate_base c) ==
   match c with FleaCat => 8 | SpiderCat => 15 | ScorpionCat => 25 end)%Q.
Proof. destruct c; vm_compute; reflexivity. Qed.

Lemma rate_floor_Q c :
  (F2Q (rate_floor c) ==
   match c with FleaCat => 5 | SpiderCat => 10 | ScorpionCat => 15 end)%Q.
Proof. destruct c; vm_compute; reflexivity. Qed.

Lemma rate_decrement_Q c :
  (F2Q (rate_decrement c) ==
   match c with FleaCat => 1 # 2 | SpiderCat => 1 | ScorpionCat => 2 end)%Q.
Proof. destruct c; vm_compute; reflexivity. Qed.

Lemma rate_decrement_pos c : (0 < F2Q (rate_decrement c))%Q.
Proof. destruct c; vm_compute; reflexivity. Qed.

(** One level moves the rate one step along the table: every
    subtraction and comparison on the way is exact in binary64. *)
Lemma table_rate_step c n :
  py_max (rate_floor c) (table_rate c n - rate_decrement c)%float =
  table_rate c (S n).
Proof.
  destruct c;
    do 7 (destruct n as [|n]; [vm_compute; reflexivity|]);
    vm_compute; reflexivity.
Qed.

Lemma wave_game_table c rnds :
  rate c (wave_game rnds) = table_rate c (length rnds).
Proof.
  induction rnds as [|rnd rnds IH] using rev_ind.
  - by destruct c.
  - unfold wave_game in *.
    rewrite advance_snoc, next_level_rate, IH, length_app.
    simpl length. rewrite Nat.add_1_r. apply table_rate_step.
Qed.

Lemma table_rate_finite c n : is_finite (table_rate c n) = true.
Proof.
  destruct c;
    do 7 (destruct n as [|n]; [vm_compute; reflexivity|]);
    vm_compute; reflexivity.
Qed.

Lemma table_rate_closed c n : (F2Q (table_rate c n) == scaled_rate c n)%Q.
Proof.
  do 7 (destruct n as [|n]; [destruct c; vm_compute; reflexivity|]).
  replace (table_rate c (S (S (S (S (S (S (S n))))))))
    with (rate_floor c) by (by destruct c).
  unfold scaled_rate.
  remember (S (S (S (S (S (S (S n))))))) as k eqn:Hk.
  assert (Hx : (7 <= inject_Z (Z.of_nat k))%Q).
  { change 7%Q with (inject_Z 7). rewrite <- Zle_Qle. lia. }
  revert Hx. generalize (inject_Z (Z.of_nat k)). intros x Hx.
  destruct (Qmax_cases (F2Q (rate_floor c))
              (F2Q (rate_base c) - x * F2Q (rate_decrement c)))
    as [[H ->]|[H ->]]; [|reflexivity].
  revert H. rewrite rate_floor_Q, rate_base_Q, rate_decrement_Q.
  destruct c; intros H; lra.
Qed.

Lemma scaled_rate_floor c n : (F2Q (rate_floor c) <= scaled_rate c n)%Q.
Proof.
  unfold scaled_rate.
  destruct (Qmax_cases (F2Q (rate_floor c))
              (F2Q (rate_base c)
               - inject_Z (Z.of_nat n) * F2Q (rate_decrement c)))
    as [[H ->]|[H ->]]; lra.
Qed.

Lemma scaled_rate_mono c n1 n2 :
  (n1 ≤ n2)%nat → (scaled_rate c n2 <= scaled_rate c n1)%Q.
Proof.
  intros Hn. unfold scaled_rate.
  assert (inject_Z (Z.of_nat n1) * F2Q (rate_decrement c)
          <= inject_Z (Z.of_nat n2) * F2Q (rate_decrement c))%Q as Hm.
  { apply Qmult_le_compat_r.
    - rewrite <- Zle_Qle. lia.
    - apply Qlt_le_weak, rate_decrement_pos. }
  revert Hm.
  generalize (inject_Z (Z.of_nat n1) * F2Q (rate_decrement c))%Q.
  generalize (inject_Z (Z.of_nat n2) * F2Q (rate_decrement c))%Q.
  generalize (F2Q (rate_floor c)). generalize (F2Q (rate_base c)).
  intros b f x2 x1 Hm.
  destruct (Qmax_cases f (b - x2)) as [[H2 ->]|[H2 ->]];
  destruct (Qmax_cases f (b - x1)) as [[H1 ->]|[H1 ->]];
  lra.
Qed.

(** C6: each level completed replaces a category's rate by
    [max(floor, rate - decrement)], computed in binary64; after [n]
    completed levels (wave [n + 1]) the rate is a finite number whose
    value is exactly [max(floor, base - n * decrement)]; a later wave
    has a rate that is no larger and is at least the floor; for fleas
    (8.0, 0.5, 5.0) the rate is the double 5.0 in wave 7 and the double
    6.5 in wave 4. *)
Theorem wave_scaling (c : Category) (rnds1 rnds2 : list Draws) :
  (length rnds1 < length rnds2)%nat →
  (F2Q (rate c (wave_game rnds2)) <= F2Q (rate c (wave_game rnds1)))%Q ∧
  (F2Q (rate_floor c) <= F2Q (rate c (wave_game rnds2)))%Q ∧
  (∀ rnd g, rate c (_next_level rnd g) =
            py_max (rate_floor c) (rate c g - rate_decrement c)%float) ∧
  (∀ rnds, level (wave_game rnds) = 1 + Z.of_nat (length rnds) ∧
           is_finite (rate c (wave_game rnds)) = true ∧
           (F2Q (rate c (wave_game rnds)) == scaled_rate c (length rnds))%Q) ∧
  ((F2Q (rate_base c) ==
    match c with FleaCat => 8 | SpiderCat => 15 | ScorpionCat => 25 end)%Q ∧
   (F2Q (rate_decrement c) ==
    match c with FleaCat => 1 # 2 | SpiderCat => 1 | ScorpionCat => 2 end)%Q ∧
   (F2Q (rate_floor c) ==
    match c with FleaCat => 5 | SpiderCat => 10 | ScorpionCat => 15 end)%Q) ∧
  rate FleaCat (wave_game []) = 8%float ∧
  (∀ rnds, level (wave_game rnds) = 7 →
           rate FleaCat (wave_game rnds) = 5%float) ∧
  (∀ rnds, level (wave_game rnds) = 4 →
           rate FleaCat (wave_game rnds) = 6.5%float).
Proof.
  intros Hlt.
  split; [|split; [|split; [|split; [|split; [|split; [|split]]]]]].
  - rewrite !wave_game_table, !table_rate_closed.
    apply scaled_rate_mono. lia.
  - rewrite wave_game_table, table_rate_closed. apply scaled_rate_floor.
  - intros rnd g. apply next_level_rate.
  - intros rnds. split; [apply wave_game_level|].
    rewrite wave_game_table.
    split; [apply table_rate_finite | apply table_rate_closed].
  - split; [apply rate_base_Q|].
    split; [apply rate_decrement_Q | apply rate_floor_Q].
  - done.
  - intros rnds Hl. rewrite wave_game_level in Hl.
    rewrite wave_game_table.
    replace (length rnds) with 6%nat by lia. reflexivity.
  - intros rnds Hl. rewrite wave_game_level in Hl.
    rewrite wave_game_table.
    replace (length rnds) with 3%nat by lia. reflexivity.
Qed.

(** ** Spawning *)

Lemma spawn_enemies_timer rnd g c :
  timer c (_spawn_enemies rnd g) =
  if (rate c g <=? timer c g)%float then 0%float else timer c g.
Proof.
  unfold _spawn_enemies, alloc.
  destruct (flea_spawn_rate g <=? flea_spawn_timer g)%float eqn:Hf;
    [destruct (_ <? 3)%nat|]; cbn;
    destruct (spider_spawn_rate g <=? spider_spawn_timer g)%float eqn:Hs; cbn;
    destruct (scorpion_spawn_rate g <=? scorpion_spawn_timer g)%float eqn:Hc;
    destruct c; cbn; by rewrite ?Hf, ?Hs, ?Hc.
Qed.

(** [_spawn_enemies] leaves the player attribute alone and takes no
    object out of the store. *)
Lemma spawn_enemies_keeps rnd g :
  player (_spawn_enemies rnd g) = player g ∧
  ∀ r, is_Some (heap g !! r) → is_Some (heap (_spawn_enemies rnd g) !! r).
Proof.
  unfold _spawn_enemies, alloc.
  destruct (flea_spawn_rate g <=? flea_spawn_timer g)%float;
    [destruct (_ <? 3)%nat|]; cbn;
    destruct (spider_spawn_rate g <=? spider_spawn_timer g)%float; cbn;
    destruct (scorpion_spawn_rate g <=? scorpion_spawn_timer g)%float; cbn;
    (split; [done|]); intros r Hr;
    rewrite ?lookup_insert; repeat case_decide; eauto.
Qed.

Lemma spawn_segment_keeps start_x i g :
  player (spawn_segment start_x i g) = player g ∧
  ∀ r, is_Some (heap g !! r) →
       is_Some (heap (spawn_segment start_x i g) !! r).
Proof.
  unfold spawn_segment, alloc. destruct (400 <? start_x); cbn;
    (split; [done|]); intros r Hr;
    rewrite lookup_insert; case_decide; eauto.
Qed.

Lemma spawn_centipede_keeps choice g :
  player (spawn_centipede choice g) = player g ∧
  ∀ r, is_Some (heap g !! r) → is_Some (heap (spawn_centipede choice g) !! r).
Proof.
  unfold spawn_centipede.
  generalize (seq 0 (Z.to_nat (current_centipede_length
                                 (set_centipede_segments [] g)))).
  intros l.
  change (player g) with (player (set_centipede_segments [] g)).
  change (heap g) with (heap (set_centipede_segments [] g)).
  generalize (set_centipede_segments [] g). clear g.
  induction l as [|i l IH]; intros g; simpl; [done|].
  destruct (IH (spawn_segment (if choice then 50 else 750) i g)) as [H1 H2].
  destruct (spawn_segment_keeps (if choice then 50 else 750) i g) as [K1 K2].
  split; [congruence|]. intros r Hr. apply H2, K2, Hr.
Qed.

Lemma next_level_keeps rnd g :
  player (_next_level rnd g) = player g ∧
  ∀ r, is_Some (heap g !! r) → is_Some (heap (_next_level rnd g) !! r).
Proof.
  unfold _next_level.
  exact (spawn_centipede_keeps (centipede_choice rnd)
           (set_current_centipede_length
              (Z.max 1 (current_centipede_length (set_level (level g + 1) g) - 1))
              (set_level (level g + 1) g))).
Qed.

Lemma next_level_timer rnd g c : timer c (_next_level rnd g) = timer c g.
Proof.
  unfold _next_level.
  destruct (spawn_centipede_controller (centipede_choice rnd)
              (set_current_centipede_length
                 (Z.max 1 (current_centipede_length (set_level (level g + 1) g) - 1))
                 (set_level (level g + 1) g))) as (_ & _ & _ & _ & Ht & _).
  pose proof (Ht FleaCat) as Hf. pose proof (Ht SpiderCat) as Hs.
  pose proof (Ht ScorpionCat) as Hc. simpl in Hf, Hs, Hc.
  destruct c; simpl; by rewrite ?Hf, ?Hs, ?Hc.
Qed.

Lemma regenerate_fold_timer l acc c :
  timer c (foldl regenerate_one acc l).1 = timer c acc.1.
Proof.
  revert acc. induction l as [|r l IH]; intros acc; simpl; [done|].
  rewrite IH. unfold regenerate_one.
  destruct (heap acc.1 !! r) as [[| |m| | | |]|]; try done.
  destruct (_ || _); by destruct c.
Qed.

Lemma regenerate_fold_keeps l acc :
  player (foldl regenerate_one acc l).1 = player acc.1 ∧
  ∀ r, is_Some (heap acc.1 !! r) →
       is_Some (heap (foldl regenerate_one acc l).1 !! r).
Proof.
  revert acc. induction l as [|r0 l IH]; intros acc; simpl; [done|].
  destruct (IH (regenerate_one acc r0)) as [H1 H2].
  assert (player (regenerate_one acc r0).1 = player acc.1 ∧
          ∀ r, is_Some (heap acc.1 !! r) →
               is_Some (heap (regenerate_one acc r0).1 !! r)) as [K1 K2].
  { unfold regenerate_one.
    destruct (heap acc.1 !! r0) as [[| |m| | | |]|]; try done.
    destruct (_ || _); [|done]. cbn. split; [done|].
    intros r Hr. rewrite lookup_insert. case_decide; eauto. }
  split; [congruence|]. intros r Hr. apply H2, K2, Hr.
Qed.

Lemma regenerate_mushrooms_timer g c :
  timer c (_regenerate_mushrooms g) = timer c g.
Proof.
  unfold _regenerate_mushrooms.
  pose proof (regenerate_fold_timer
                (filter (λ r, is_Some (live_mushroom g r)) (game_objects g))
                (g, 0) c) as H.
  destruct (foldl regenerate_one (g, 0) _) as [g1 n]. simpl in H.
  rewrite <- H. by destruct c.
Qed.

Lemma regenerate_mushrooms_keeps g :
  player (_regenerate_mushrooms g) = player g ∧
  ∀ r, is_Some (heap g !! r) → is_Some (heap (_regenerate_mushrooms g) !! r).
Proof.
  unfold _regenerate_mushrooms.
  pose proof (regenerate_fold_keeps
                (filter (λ r, is_Some (live_mushroom g r)) (game_objects g))
                (g, 0)) as H.
  destruct (foldl regenerate_one (g, 0) _) as [g1 n]. exact H.
Qed.

(** With a player, [_player_death] returns; it leaves the timers
    alone. *)
Lemma player_death_Some g :
  player_set g →
  ∃ g', _player_death g = Some g' ∧ ∀ c, timer c g' = timer c g.
Proof.
  intros (p & Hp & Hs). unfold _player_death.
  destruct (lives (set_lives (lives g - 1) g) <=? 0).
  { eexists. split; [done|]. by intros []. }
  set (g2 := _regenerate_mushrooms (set_lives (lives g - 1) g)).
  destruct (regenerate_mushrooms_keeps (set_lives (lives g - 1) g))
    as [K1 K2].
  fold g2 in K1, K2.
  assert (Ht : ∀ c, timer c g2 = timer c g).
  { intros c. unfold g2. rewrite regenerate_mushrooms_timer. by destruct c. }
  cbn [player set_lives] in K1. rewrite K1, Hp. simpl.
  destruct (K2 p Hs) as [o Ho]. rewrite Ho. simpl.
  eexists. split; [done|]. intros c. rewrite <- Ht. by destruct c.
Qed.

Lemma check_player_collisions_Some g :
  player_set g →
  ∃ g', _check_player_collisions g = Some g' ∧ ∀ c, timer c g' = timer c g.
Proof.
  intros Hset. pose proof Hset as (p & Hp & [o Ho]).
  unfold _check_player_collisions. rewrite Hp. simpl. rewrite Ho. simpl.
  destruct (obj_is_destroyed o); [by eexists|].
  destruct (existsb _ _); [by apply player_death_Some | by eexists].
Qed.

Lemma check_player_collisions_None g :
  player g = None → _check_player_collisions g = None.
Proof. intros H. unfold _check_player_collisions. by rewrite H. Qed.

(** The player attribute after the spawn step and the level step of
    [update]. *)
Lemma update_prefix_keeps dt rnd g :
  let g2 := _spawn_enemies rnd (advance_spawn_timers dt g) in
  let g3 := match omap (live_segment g2) (game_objects g2) with
            | [] => _next_level rnd g2
            | _ :: _ => g2
            end in
  player g3 = player g ∧
  (∀ r, is_Some (heap g !! r) → is_Some (heap g3 !! r)) ∧
  ∀ c, timer c g3 = if due c dt g then 0%float else (timer c g + dt)%float.
Proof.
  intros g2 g3.
  destruct (spawn_enemies_keeps rnd (advance_spawn_timers dt g)) as [H1 H2].
  fold g2 in H1, H2.
  assert (Ht2 : ∀ c, timer c g2 =
                     if due c dt g then 0%float else (timer c g + dt)%float).
  { intros c. unfold g2. rewrite spawn_enemies_timer. unfold due.
    by destruct c. }
  unfold g3. destruct (omap _ _).
  - destruct (next_level_keeps rnd g2) as [K1 K2].
    split; [by rewrite K1, H1|].
    split; [intros r Hr; apply K2, H2, Hr|].
    intros c. by rewrite next_level_timer.
  - split; [done|]. split; [done|done].
Qed.

Lemma update_Some dt rnd g :
  player_set g →
  ∃ g', update dt rnd g = Some g' ∧
        ∀ c, timer c g' =
             if due c dt g then 0%float else (timer c g + dt)%float.
Proof.
  intros (p & Hp & Hs).
  destruct (update_prefix_keeps dt rnd g) as (H1 & H2 & H3).
  unfold update. cbv zeta.
  set (g3 := match omap _ _ with [] => _ | _ :: _ => _ end) in *.
  destruct (check_player_collisions_Some g3) as (g4 & Hg4 & Ht4).
  { exists p. split; [by rewrite H1 | by apply H2]. }
  rewrite Hg4. simpl. eexists. split; [done|].
  intros c. rewrite <- H3, <- Ht4.
  destruct (_ && _); by destruct c.
Qed.

Lemma update_None dt rnd g : player g = None → update dt rnd g = None.
Proof.
  intros Hp.
  destruct (update_prefix_keeps dt rnd g) as (H1 & _).
  unfold update. cbv zeta.
  set (g3 := match omap _ _ with [] => _ | _ :: _ => _ end) in *.
  rewrite check_player_collisions_None; [done|]. by rewrite H1.
Qed.

Lemma fresh_ref_unused g : heap g !! fresh (dom (heap g)) = None.
Proof. apply not_elem_of_dom, is_fresh. Qed.

(** Creating an object and adding it to the scene appends it to the
    objects of the scene and keeps the scene well formed. *)
Lemma scene_objects_alloc_add g o :
  scene_wf g →
  let r := (alloc o g).1 in
  let g' := add_object r (alloc o g).2 in
  scene_objects g' = scene_objects g ++ [o] ∧ scene_wf g'.
Proof.
  intros Hwf. unfold alloc, add_object, store, scene_objects, scene_wf.
  cbn. set (r := fresh (dom (heap g))).
  assert (Hr : heap g !! r = None) by apply fresh_ref_unused.
  split.
  - rewrite omap_app. cbn. rewrite lookup_insert_eq. f_equal.
    apply list_omap_ext, Forall_Forall2_diag, Forall_forall.
    intros r' Hr'. apply lookup_insert_ne. intros ->.
    destruct (Hwf r' Hr') as [? ?]. congruence.
  - intros r'. rewrite elem_of_app, list_elem_of_singleton, lookup_insert.
    destruct (decide (r = r')); [eauto|].
    intros [H|H]; [by apply Hwf | congruence].
Qed.

Lemma scene_objects_set_spawn_timers a b c g :
  scene_objects (set_spawn_timers a b c g) = scene_objects g.
Proof. done. Qed.

Lemma scene_wf_set_spawn_timers a b c g :
  scene_wf g → scene_wf (set_spawn_timers a b c g).
Proof. done. Qed.

(** What [_spawn_enemies] adds to the scene, in order. *)
Lemma spawn_enemies_objects rnd g :
  scene_wf g →
  scene_objects (_spawn_enemies rnd g) =
  scene_objects g
  ++ (if (rate FleaCat g <=? timer FleaCat g)%float && flea_guard g
      then [OFlea (Flea.new (flea_x rnd))] else [])
  ++ (if (rate SpiderCat g <=? timer SpiderCat g)%float
      then [OSpider (Spider.new (spider_side rnd) (spider_y rnd))] else [])
  ++ (if (rate ScorpionCat g <=? timer ScorpionCat g)%float
      then [OScorpion (Scorpion.new (scorpion_side rnd) (scorpion_y rnd))]
      else []).
Proof.
  intros Hwf. unfold _spawn_enemies. cbv zeta. cbn [rate timer].
  fold (flea_guard g).
  set (g1 := if (flea_spawn_rate g <=? flea_spawn_timer g)%float
             then _ else g).
  assert (scene_objects g1 =
          scene_objects g
          ++ (if (flea_spawn_rate g <=? flea_spawn_timer g)%float
                 && flea_guard g
              then [OFlea (Flea.new (flea_x rnd))] else []) ∧
          scene_wf g1 ∧
          spider_spawn_rate g1 = spider_spawn_rate g ∧
          spider_spawn_timer g1 = spider_spawn_timer g ∧
          scorpion_spawn_rate g1 = scorpion_spawn_rate g ∧
          scorpion_spawn_timer g1 = scorpion_spawn_timer g)
    as (Ho1 & Hwf1 & Hr1 & Ht1 & Hr1' & Ht1').
  { unfold g1. destruct (flea_spawn_rate g <=? flea_spawn_timer g)%float.
    - destruct (flea_guard g).
      + destruct (scene_objects_alloc_add g (OFlea (Flea.new (flea_x rnd))) Hwf)
          as [H1 H2].
        destruct (alloc (OFlea (Flea.new (flea_x rnd))) g) as [flea g''] eqn:Ha.
        unfold alloc in Ha. injection Ha as <- <-.
        rewrite scene_objects_set_spawn_timers.
        split; [done|]. split; [by apply scene_wf_set_spawn_timers|done].
      + rewrite scene_objects_set_spawn_timers, app_nil_r.
        split; [done|]. split; [by apply scene_wf_set_spawn_timers|done].
    - rewrite app_nil_r. by repeat split. }
  clearbody g1.
  set (g2 := if (spider_spawn_rate g1 <=? spider_spawn_timer g1)%float
             then _ else g1).
  assert (scene_objects g2 =
          scene_objects g1
          ++ (if (spider_spawn_rate g <=? spider_spawn_timer g)%float
              then [OSpider (Spider.new (spider_side rnd) (spider_y rnd))]
              else []) ∧
          scene_wf g2 ∧
          scorpion_spawn_rate g2 = scorpion_spawn_rate g ∧
          scorpion_spawn_timer g2 = scorpion_spawn_timer g)
    as (Ho2 & Hwf2 & Hr2 & Ht2).
  { unfold g2. rewrite Hr1, Ht1.
    destruct (spider_spawn_rate g <=? spider_spawn_timer g)%float.
    - destruct (scene_objects_alloc_add g1
                  (OSpider (Spider.new (spider_side rnd) (spider_y rnd))) Hwf1)
        as [H1 H2].
      destruct (alloc (OSpider _) g1) as [spider g'] eqn:Ha.
      unfold alloc in Ha. injection Ha as <- <-.
      rewrite scene_objects_set_spawn_timers.
      split; [done|]. split; [by apply scene_wf_set_spawn_timers|done].
    - rewrite app_nil_r. by repeat split. }
  clearbody g2. rewrite Hr2, Ht2.
  destruct (scorpion_spawn_rate g <=? scorpion_spawn_timer g)%float.
  - destruct (scene_objects_alloc_add g2
                (OScorpion (Scorpion.new (scorpion_side rnd) (scorpion_y rnd)))
                Hwf2) as [H1 _].
    destruct (alloc (OScorpion _) g2) as [scorpion g'] eqn:Ha.
    unfold alloc in Ha. injection Ha as <- <-.
    rewrite scene_objects_set_spawn_timers.
    cbn [fst snd] in H1.
    by rewrite H1, Ho2, Ho1, <- !app_assoc.
  - by rewrite Ho2, Ho1, app_nil_r, <- !app_assoc.
Qed.

Lemma count_kind_app p g g' (new : list Obj) :
  scene_objects g' = scene_objects g ++ new →
  count_kind p g' =
  (count_kind p g + length (filter (λ o, p o = true) new))%nat.
Proof. intros H. unfold count_kind. by rewrite H, filter_app, length_app. Qed.

(** C8: every frame adds [dt] to each spawn timer, in binary64; a
    category whose timer then passes the test [timer >= rate], as
    binary64 decides it, is reset to 0.0 and one enemy of it is added to
    the scene, except that the flea is added only while fewer than 3
    live mushrooms are in the player area: a refused flea still resets
    its timer.  The frame update as a whole returns, with these timers,
    once the player was created; before that it raises. *)
Theorem spawn_timers (dt : float) (rnd : Draws) (g : Game) :
  scene_wf g →
  let spawned := _spawn_enemies rnd (advance_spawn_timers dt g) in
  (∀ c, timer c (advance_spawn_timers dt g) = (timer c g + dt)%float) ∧
  (∀ c, timer c spawned =
        if due c dt g then 0%float else (timer c g + dt)%float) ∧
  (player_set g →
   ∃ g', update dt rnd g = Some g' ∧
         ∀ c, timer c g' =
              if due c dt g then 0%float else (timer c g + dt)%float) ∧
  (player g = None → update dt rnd g = None) ∧
  scene_objects spawned =
    scene_objects g
    ++ (if due FleaCat dt g && flea_guard g
        then [OFlea (Flea.new (flea_x rnd))] else [])
    ++ (if due SpiderCat dt g
        then [OSpider (Spider.new (spider_side rnd) (spider_y rnd))] else [])
    ++ (if due ScorpionCat dt g
        then [OScorpion (Scorpion.new (scorpion_side rnd) (scorpion_y rnd))]
        else []) ∧
  count_kind is_flea spawned =
    (count_kind is_flea g
     + if due FleaCat dt g && flea_guard g then 1 else 0)%nat ∧
  count_kind is_spider spawned =
    (count_kind is_spider g + if due SpiderCat dt g then 1 else 0)%nat ∧
  count_kind is_scorpion spawned =
    (count_kind is_scorpion g + if due ScorpionCat dt g then 1 else 0)%nat.
Proof.
  intros Hwf spawned.
  assert (Hobj : scene_objects spawned =
    scene_objects g
    ++ (if due FleaCat dt g && flea_guard g
        then [OFlea (Flea.new (flea_x rnd))] else [])
    ++ (if due SpiderCat dt g
        then [OSpider (Spider.new (spider_side rnd) (spider_y rnd))] else [])
    ++ (if due ScorpionCat dt g
        then [OScorpion (Scorpion.new (scorpion_side rnd) (scorpion_y rnd))]
        else [])).
  { unfold spawned. by rewrite spawn_enemies_objects. }
  split; [by intros []|].
  split; [intros c; unfold spawned; rewrite spawn_enemies_timer;
          unfold due; by destruct c|].
  split; [apply update_Some|].
  split; [apply update_None|].
  split; [done|].
  repeat split; rewrite (count_kind_app _ _ _ _ Hobj); f_equal;
    destruct (due FleaCat dt g && flea_guard g), (due SpiderCat dt g),
      (due ScorpionCat dt g); done.
Qed.

(** ** Instances *)

(** Well-formedness of a concrete game, by evaluation. *)
Lemma chain_wf_check g :
  forallb (λ r, match heap g !! r with
                | Some (OSegment _) => true
                | _ => false
                end) (centipede_segments g) = true →
  chain_wf g.
Proof.
  intros H r Hr. rewrite forallb_forall in H.
  apply list_elem_of_In in Hr. specialize (H r Hr).
  destruct (heap g !! r) as [[| | |s| | |]|]; try done. eauto.
Qed.

Lemma scene_wf_check g :
  forallb (λ r, match heap g !! r with Some _ => true | None => false end)
          (game_objects g) = true →
  scene_wf g.
Proof.
  intros H r Hr. rewrite forallb_forall in H.
  apply list_elem_of_In in Hr. specialize (H r Hr).
  destruct (heap g !! r); [eauto|done].
Qed.

Lemma player_set_check g :
  match player g with
  | Some p => match heap g !! p with Some _ => true | None => false end
  | None => false
  end = true →
  player_set g.
Proof.
  intros H. destruct (player g) as [p|] eqn:Hp; [|done].
  exists p. split; [done|]. destruct (heap g !! p); [eauto|done].
Qed.

Lemma NoDup_check (l : list nat) : bool_decide (NoDup l) = true → NoDup l.
Proof. apply bool_decide_eq_true_1. Qed.


(** A split for a reference that is not in the chain of [spawned_game]. *)
Lemma split_absent_is_noop_witness :
  (99%nat ∉ centipede_segments spawned_game) ∧
  _split_centipede_at_segment 99 spawned_game = Some spawned_game.
Proof.
  assert (H : 99%nat ∉ centipede_segments spawned_game)
    by (apply py_in_false; vm_compute; reflexivity).
  split; [exact H|].
  destruct (split_absent_is_noop spawned_game 99 H) as (g' & Hs & _ & _ & Hg).
  rewrite Hs. f_equal. exact Hg.
Defined.

(** The chain of twelve split at index 5: groups of 5 and 6. *)
Lemma split_conservation_witness :
  chain_wf spawned_game ∧
  NoDup (centipede_segments spawned_game) ∧
  centipede_segments spawned_game !! 5%nat = Some 6%nat ∧
  ∃ g', _split_centipede_at_segment 6 spawned_game = Some g' ∧
        length (head_subchain 5 g') = 5%nat ∧
        length (tail_subchain 5 g') = 6%nat ∧
        length (centipede_segments g') = 11%nat.
Proof.
  assert (H1 : chain_wf spawned_game)
    by (apply chain_wf_check; vm_compute; reflexivity).
  assert (H2 : NoDup (centipede_segments spawned_game))
    by (apply NoDup_check; vm_compute; reflexivity).
  assert (H3 : centipede_segments spawned_game !! 5%nat = Some 6%nat)
    by (vm_compute; reflexivity).
  split; [exact H1|]. split; [exact H2|]. split; [exact H3|].
  destruct (split_conservation spawned_game 5 6 H1 H2 H3)
    as (g' & Hs & _ & _ & _ & Hh & Ht & Hl & _).
  exists g'. split; [exact Hs|]. split; [exact Hh|].
  split; [exact Ht | exact Hl].
Defined.


(** A descent at speed 50 with frames of the double 0.016.  Each frame
    adds the double nearest to 1.6; after ten frames the accumulated
    progress is 15.999999999999998, still below the distance 16, and the
    eleventh frame completes the descent. *)
Lemma descent_completion_witness :
  let dts := replicate 10 frame_60 in
  let s1 := run [] dts descending_segment in
  let s2 := CentipedeSegment.update [] frame_60 s1 in
  CentipedeSegment.is_descending descending_segment = true ∧
  all_below [] dts descending_segment ∧
  reaches frame_60 s1 ∧
  CentipedeSegment.descend_progress s1 = 0x1.fffffffffffffp+3%float ∧
  CentipedeSegment.is_descending s2 = false ∧
  CentipedeSegment.descend_progress s2 = 0%float ∧
  Vector2.x (CentipedeSegment.direction s2) =
    (- Vector2.x (CentipedeSegment.direction descending_segment))%float.
Proof.
  intros dts s1 s2.
  assert (H1 : CentipedeSegment.is_descending descending_segment = true)
    by reflexivity.
  assert (H2 : all_below [] dts descending_segment)
    by (vm_compute; repeat split).
  assert (H3 : reaches frame_60 s1) by (vm_compute; reflexivity).
  split; [exact H1|]. split; [exact H2|]. split; [exact H3|].
  split; [vm_compute; reflexivity|].
  destruct (descent_completion [] dts frame_60 descending_segment H1 H2 H3)
    as (_ & _ & Hd & _ & Hp & Hx & _).
  split; [exact Hd|]. split; [exact Hp | exact Hx].
Defined.

(** The first frame of that descent. *)
Lemma descending_tick_frame_witness :
  let s' := CentipedeSegment.update [] frame_60 descending_segment in
  CentipedeSegment.is_descending descending_segment = true ∧
  below frame_60 descending_segment ∧
  Vector2.x (CentipedeSegment.position s') =
    Vector2.x (CentipedeSegment.position descending_segment) ∧
  CentipedeSegment.direction s' =
    CentipedeSegment.direction descending_segment ∧
  CentipedeSegment.is_descending s' = true.
Proof.
  intros s'.
  assert (H1 : CentipedeSegment.is_descending descending_segment = true)
    by reflexivity.
  assert (H2 : below frame_60 descending_segment)
    by (vm_compute; reflexivity).
  split; [exact H1|]. split; [exact H2|].
  destruct (descending_tick_frame [] frame_60 descending_segment H1 H2)
    as ((Hx & _) & (_ & _ & Hdir & _ & Hdesc & _) & _).
  split; [exact Hx|]. split; [exact Hdir | exact Hdesc].
Defined.

(** Four hits on the fresh mushroom of [mushroom_scene]. *)
Lemma mushroom_durability_witness :
  let m := Mushroom.new 110 120 in
  heap mushroom_scene !! O = Some (OMushroom m) ∧
  mushroom_inv m ∧
  Mushroom.is_destroyed m = false ∧
  Mushroom.hits m = 0 ∧
  scene_engine mushroom_scene = true ∧
  ∃ g' m', hit_times 4 O mushroom_scene = Some g' ∧
           heap g' !! O = Some (OMushroom m') ∧
           Mushroom.is_destroyed m' = true ∧
           score g' = score mushroom_scene + 1.
Proof.
  intros m.
  assert (H1 : heap mushroom_scene !! O = Some (OMushroom m))
    by (vm_compute; reflexivity).
  assert (H2 : mushroom_inv m) by (split; [discriminate | reflexivity]).
  assert (H3 : Mushroom.is_destroyed m = false) by reflexivity.
  assert (H4 : Mushroom.hits m = 0) by reflexivity.
  assert (H5 : scene_engine mushroom_scene = true) by reflexivity.
  split; [exact H1|]. split; [exact H2|]. split; [exact H3|].
  split; [exact H4|]. split; [exact H5|].
  destruct (mushroom_durability mushroom_scene O m H1 H2 H3 H4 H5)
    as (_ & Hlast & _).
  exact Hlast.
Defined.

(** Waves 2 and 3. *)
Lemma wave_scaling_witness :
  (length [some_draws] < length [some_draws; some_draws])%nat ∧
  (F2Q (rate FleaCat (wave_game [some_draws; some_draws]))
   <= F2Q (rate FleaCat (wave_game [some_draws])))%Q ∧
  (F2Q (rate_floor FleaCat)
   <= F2Q (rate FleaCat (wave_game [some_draws; some_draws])))%Q.
Proof.
  assert (H : (length [some_draws] < length [some_draws; some_draws])%nat)
    by (simpl; lia).
  split; [exact H|].
  destruct (wave_scaling FleaCat [some_draws] [some_draws; some_draws] H)
    as (H1 & H2 & _).
  split; [exact H1 | exact H2].
Defined.

(** A flea that is due and refused in [crowded_scene].  The frame is
    the largest double below one half: the exact sum of the timer 7.5
    and the frame is short of the rate 8.0, but binary64 rounds it to
    8.0 and the flea is due. *)
Lemma spawn_timers_witness :
  let spawned :=
    _spawn_enemies some_draws (advance_spawn_timers short_half crowded_scene) in
  scene_wf crowded_scene ∧
  player_set crowded_scene ∧
  (F2Q (timer FleaCat crowded_scene) + F2Q short_half
   < F2Q (rate FleaCat crowded_scene))%Q ∧
  due FleaCat short_half crowded_scene = true ∧
  flea_guard crowded_scene = false ∧
  (∃ g', update short_half some_draws crowded_scene = Some g' ∧
         timer FleaCat g' = 0%float) ∧
  count_kind is_flea spawned = count_kind is_flea crowded_scene.
Proof.
  intros spawned.
  assert (H : scene_wf crowded_scene)
    by (apply scene_wf_check; vm_compute; reflexivity).
  assert (Hp : player_set crowded_scene)
    by (apply player_set_check; vm_compute; reflexivity).
  assert (Hd : due FleaCat short_half crowded_scene = true)
    by (vm_compute; reflexivity).
  assert (Hg : flea_guard crowded_scene = false)
    by (vm_compute; reflexivity).
  split; [exact H|]. split; [exact Hp|].
  split; [vm_compute; reflexivity|].
  split; [exact Hd|]. split; [exact Hg|].
  destruct (spawn_timers short_half some_draws crowded_scene H)
    as (_ & _ & Hu & _ & _ & Hc & _).
  split.
  - destruct (Hu Hp) as (g' & Hg' & Ht). exists g'. split; [exact Hg'|].
    rewrite (Ht FleaCat), Hd. reflexivity.
  - fold spawned in Hc. rewrite Hc, Hd, Hg. simpl. apply Nat.add_0_r.
Defined.
